(** * Exam monitoring: the infraction ledger and the signal detectors

    A shallow embedding of the browser extension's service worker
    (background.js: the per-identity infraction ledger kept in
    [chrome.storage.local]), of the detectors and listeners of its content
    script (content.js) and of the local status shown by its control panel
    (popup.js), with the properties the specification states about them
    and further ones of the handlers, the detectors and their interplay.

    Conventions of the embedding.
    - A JavaScript object used as a dictionary is a [gmap string _] holding
      its own properties; a read [obj[key]] goes through [js_get], which
      also sees the members every plain object inherits from
      [Object.prototype].
    - A message handler reads the storage, computes, writes the storage and
      answers; it is one atomic function from the stored data to the reply,
      the notifications shown and the new stored data. The [chrome.*] calls
      are taken to complete normally.
    - Clock readings ([new Date().toISOString()], [Date.now()]) are inputs.
    - Counters are natural numbers: the code only adds one to them or resets
      them to zero, which a JavaScript number does exactly below 2^53. *)

From Stdlib Require Import ZArith Lia.
From stdpp Require Import gmap strings list pretty.

Local Open Scope string_scope.
Local Open Scope list_scope.

(** ** Property reads on plain JavaScript objects *)

Module JS.

(** The members of [Object.prototype]: a read of one of these names on a
    plain object that has no own property of that name yields the
    inherited member, which is an object or a function, hence truthy. *)
Definition Object_prototype_keys : list string :=
  [ "constructor"; "hasOwnProperty"; "isPrototypeOf";
    "propertyIsEnumerable"; "toLocaleString"; "toString"; "valueOf";
    "__defineGetter__"; "__defineSetter__"; "__lookupGetter__";
    "__lookupSetter__"; "__proto__" ].

Definition inherited_key (k : string) : bool :=
  bool_decide (k ∈ Object_prototype_keys).

(** The result of [obj[k]] on a dictionary whose own values are objects. *)
Inductive property (A : Type) : Type :=
| Own (a : A)
| Inherited
| Undefined.
Arguments Own {A} a.
Arguments Inherited {A}.
Arguments Undefined {A}.

Definition js_get {A} (obj : gmap string A) (k : string) : property A :=
  match obj !! k with
  | Some a => Own a
  | None => if inherited_key k then Inherited else Undefined
  end.

(** [!!v] for the result of a read: own values are objects. *)
Definition truthy {A} (p : property A) : bool :=
  match p with
  | Undefined => false
  | _ => true
  end.

(** The property key an optional string is converted to. *)
Definition to_key (s : option string) : string := default "undefined" s.

(** [!!s] for an optional string. *)
Definition truthy_str (s : option string) : bool :=
  match s with
  | Some s => negb (String.eqb s "")
  | None => false
  end.

(** [s || ''] *)
Definition or_empty (s : option string) : string := default "" s.

(** [arr.slice(-n)]: the last [n] elements, all of them when fewer. *)
Definition slice_last {A} (n : nat) (arr : list A) : list A :=
  drop (length arr - n) arr.

End JS.

(** ** background.js: the service worker *)

Module Background.
Import JS.

Definition INFRACTION_THRESHOLD : nat := 2.

Record InfractionInfo := {
  severity : nat;
  message : string
}.

Definition INFRACTION_TYPES : gmap string InfractionInfo :=
  list_to_map
  [ ("TAB_SWITCH", {| severity := 3; message := "Tab switching detected" |});
    ("WINDOW_BLUR", {| severity := 2; message := "Window lost focus" |});
    ("CAMERA_OFF", {| severity := 5; message := "Camera turned off" |});
    ("NO_FACE", {| severity := 4; message := "Face not detected in camera" |});
    ("MULTIPLE_FACES", {| severity := 5; message := "Multiple faces detected" |});
    ("EYE_MOVEMENT",
      {| severity := 3; message := "Suspicious eye movements detected" |});
    ("AUDIO_DETECTED",
      {| severity := 3; message := "Background audio/conversation detected" |});
    ("COPY_PASTE", {| severity := 4; message := "Copy/paste attempt blocked" |});
    ("NAVIGATION", {| severity := 5; message := "Navigation attempt blocked" |});
    ("NEW_TAB", {| severity := 5; message := "New tab/window attempt blocked" |});
    ("EXTERNAL_APP",
      {| severity := 5; message := "Unauthorized application detected" |});
    ("SCREEN_SHARE",
      {| severity := 5; message := "Screen sharing software detected" |});
    ("MULTIPLE_MONITORS",
      {| severity := 5; message := "Multiple monitors detected" |});
    ("REMOTE_DESKTOP",
      {| severity := 5; message := "Remote desktop access detected" |}) ].

(** One entry of an identity's event history. The severity and message
    are those of [infractionInfo]; they are undefined when the type name
    reads an inherited member of the table. *)
Record InfractionEvent := {
  ev_type : option string;
  ev_severity : option nat;
  ev_message : option string;
  ev_details : string;
  ev_time : string;
  ev_page : string
}.

Record IdentityRecord := {
  count : nat;
  events : list InfractionEvent;
  warnings : nat
}.

Record BlockRecord := {
  blockedAt : string;
  reason : string;
  totalInfractions : nat;
  lastEvents : list InfractionEvent
}.

(** The two keys of [chrome.storage.local]; a key is absent until it is
    first written. *)
Record Storage := {
  st_infractions : option (gmap string IdentityRecord);
  st_blockedIds : option (gmap string BlockRecord)
}.

(** [data.infractions || {}] and [data.blockedIds || {}] *)
Definition infractions_of (data : Storage) : gmap string IdentityRecord :=
  default ∅ (st_infractions data).
Definition blockedIds_of (data : Storage) : gmap string BlockRecord :=
  default ∅ (st_blockedIds data).

(** [chrome.notifications.create], as called by [showNotification]. *)
Record Notification := {
  title : string;
  body : option string;
  priority : nat
}.

Definition showNotification (t : string) (m : option string) (isError : bool)
  : Notification :=
  {| title := t; body := m; priority := if isError then 2 else 1 |}.

(** The reply to a [recordInfraction] message; a field the handler does
    not set is [None]. *)
Record Response := {
  ok : bool;
  r_blocked : option bool;
  r_reason : option string;
  r_infractions : option nat;
  r_warnings : option nat;
  r_message : option string;
  r_blockReason : option string
}.

Definition no_id : Response :=
  {| ok := false; r_blocked := None; r_reason := Some "no-id";
     r_infractions := None; r_warnings := None; r_message := None;
     r_blockReason := None |}.

Definition already_blocked : Response :=
  {| ok := false; r_blocked := Some true; r_reason := Some "already-blocked";
     r_infractions := None; r_warnings := None; r_message := None;
     r_blockReason := None |}.

(** The fields of a [recordInfraction] message. *)
Record RecordMsg := {
  studentId : option string;
  infractionType : option string;
  details : option string;
  page : option string
}.

(** The two clock readings of the handler: the event's [time] and the
    block record's [blockedAt]. *)
Record Dates := {
  eventTime : string;
  blockTime : string
}.

(** [INFRACTION_TYPES[infractionType] || { severity: 1, message: ... }],
    then its [severity] and [message]. *)
Definition infractionInfo (infractionType : option string)
  : option nat * option string :=
  match js_get INFRACTION_TYPES (to_key infractionType) with
  | Own i => (Some (severity i), Some (message i))
  | Inherited => (None, None)
  | Undefined => (Some 1, Some "Unknown infraction")
  end.

Definition new_record : IdentityRecord :=
  {| count := 0; events := []; warnings := 0 |}.

(** The event pushed on the identity's history. *)
Definition new_event (d : Dates) (msg : RecordMsg) : InfractionEvent :=
  let info := infractionInfo (infractionType msg) in
  {| ev_type := infractionType msg;
     ev_severity := fst info;
     ev_message := snd info;
     ev_details := or_empty (details msg);
     ev_time := eventTime d;
     ev_page := or_empty (page msg) |}.

(** [count += 1; warnings += 1; events.push(e)] *)
Definition record_event (r : IdentityRecord) (e : InfractionEvent)
  : IdentityRecord :=
  {| count := count r + 1;
     events := events r ++ [e];
     warnings := warnings r + 1 |}.

(** The block record written for an identity whose record is [r]. *)
Definition block_record (d : Dates) (r : IdentityRecord) : BlockRecord :=
  {| blockedAt := blockTime d;
     reason := "Exceeded infraction threshold";
     totalInfractions := count r;
     lastEvents := slice_last 5 (events r) |}.

(** [response.blocked = true; response.blockReason = ...] *)
Definition set_blocked (response : Response) (why : string) : Response :=
  {| ok := ok response;
     r_blocked := Some true;
     r_reason := r_reason response;
     r_infractions := r_infractions response;
     r_warnings := r_warnings response;
     r_message := r_message response;
     r_blockReason := Some why |}.

(** The [recordInfraction] handler, for a threshold [T]. The record of
    the identity is read with [!!]: past the already-blocked check the
    identity is not a member of [Object.prototype] (lemma
    [not_blocked_not_inherited]), so the read sees own properties only. *)
Definition recordInfraction_at (T : nat) (d : Dates) (msg : RecordMsg)
    (data : Storage) : Response * list Notification * Storage :=
  if negb (truthy_str (studentId msg)) then (no_id, [], data)
  else
    let sid := to_key (studentId msg) in
    let infractions := infractions_of data in
    let blockedIds := blockedIds_of data in
    if truthy (js_get blockedIds sid) then (already_blocked, [], data)
    else
      let r0 := default new_record (infractions !! sid) in
      let r1 := record_event r0 (new_event d msg) in
      let infractions' := <[sid := r1]> infractions in
      let response :=
        {| ok := true; r_blocked := None; r_reason := None;
           r_infractions := Some (count r1);
           r_warnings := Some (warnings r1);
           r_message := snd (infractionInfo (infractionType msg));
           r_blockReason := None |} in
      let warned :=
        showNotification
          ("Warning " +:+ pretty (warnings r1) +:+ "/" +:+ pretty T)
          (snd (infractionInfo (infractionType msg))) false in
      if (T <? warnings r1)%nat then
        let record := block_record d r1 in
        let blocked :=
          showNotification "🚫 STUDENT BLOCKED"
            (Some ("Student " +:+ sid +:+
                   " has been permanently blocked due to " +:+
                   pretty (warnings r1) +:+ " violations."))
            true in
        (set_blocked response (reason record),
         [warned; blocked],
         {| st_infractions := Some infractions';
            st_blockedIds := Some (<[sid := record]> blockedIds) |})
      else
        (response, [warned],
         {| st_infractions := Some infractions';
            st_blockedIds := Some blockedIds |}).

Definition recordInfraction := recordInfraction_at INFRACTION_THRESHOLD.

(** The [isBlocked] handler: [{ blocked: !!blocked, info: blocked || null }]
    where [blocked = data.blockedIds && data.blockedIds[studentId]]. *)
Definition isBlocked (sid : option string) (data : Storage)
  : bool * property BlockRecord :=
  match st_blockedIds data with
  | Some blockedIds =>
      let blocked := js_get blockedIds (to_key sid) in
      (truthy blocked, blocked)
  | None => (false, Undefined)
  end.

(** The [getStatus] handler. *)
Definition getStatus (data : Storage)
  : gmap string IdentityRecord * gmap string BlockRecord :=
  (infractions_of data, blockedIds_of data).

(** The [unblockId] handler. [delete] removes an own property only; the
    reset writes to the identity's own record. When the name reads an
    inherited member instead, the two assignments land on that member,
    outside the ledger. *)
Definition unblockId (sid : option string) (data : Storage)
  : bool * list Notification * Storage :=
  let k := to_key sid in
  let blockedIds := delete k (blockedIds_of data) in
  let infractions :=
    match infractions_of data !! k with
    | Some r =>
        <[k := {| count := 0; events := events r; warnings := 0 |}]>
          (infractions_of data)
    | None => infractions_of data
    end in
  (true,
   [showNotification "Student Unblocked"
      (Some ("Student " +:+ k +:+ " has been unblocked.")) false],
   {| st_infractions := Some infractions; st_blockedIds := Some blockedIds |}).

(** The [clearAllData] handler. *)
Definition clearAllData (data : Storage) : bool * Storage :=
  (true, {| st_infractions := Some ∅; st_blockedIds := Some ∅ |}).

(** The [onInstalled] listener: a key that is absent is set to [{}]. *)
Definition onInstalled (data : Storage) : Storage :=
  {| st_infractions := Some (infractions_of data);
     st_blockedIds := Some (blockedIds_of data) |}.

(** *** The life of the stored ledger *)

(** What reaches the service worker: its installation and the messages of
    [chrome.runtime.onMessage]. *)
Inductive Event :=
| Installed
| RecordInfraction (d : Dates) (msg : RecordMsg)
| IsBlocked (sid : option string)
| GetStatus
| UnblockId (sid : option string)
| ClearAllData.

(** The stored data after an event. *)
Definition handle (e : Event) (data : Storage) : Storage :=
  match e with
  | Installed => onInstalled data
  | RecordInfraction d msg => snd (recordInfraction d msg data)
  | IsBlocked _ => data
  | GetStatus => data
  | UnblockId sid => snd (unblockId sid data)
  | ClearAllData => snd (clearAllData data)
  end.

Definition empty_storage : Storage :=
  {| st_infractions := None; st_blockedIds := None |}.

(** The storages the extension can be in: those reached from the empty
    storage of a fresh profile. *)
Inductive reachable : Storage -> Prop :=
| reachable_empty : reachable empty_storage
| reachable_handle e data : reachable data -> reachable (handle e data).

(** *** The state of an identity *)

(** Blocked: a block record is stored for the identity. Active: none. *)
Definition Blocked (data : Storage) (id : string) : Prop :=
  is_Some (blockedIds_of data !! id).
Definition Active (data : Storage) (id : string) : Prop :=
  blockedIds_of data !! id = None.

(** The counters and history of an identity; an identity without a
    record has none yet. *)
Definition count_at (data : Storage) (id : string) : nat :=
  from_option count 0 (infractions_of data !! id).
Definition warnings_at (data : Storage) (id : string) : nat :=
  from_option warnings 0 (infractions_of data !! id).
Definition events_at (data : Storage) (id : string) : list InfractionEvent :=
  from_option events [] (infractions_of data !! id).

(** An identity nothing is stored about. *)
Definition fresh (data : Storage) (id : string) : Prop :=
  infractions_of data !! id = None /\ blockedIds_of data !! id = None.

(** The record of an identity after one more event. *)
Definition next_record (d : Dates) (msg : RecordMsg) (data : Storage)
    : IdentityRecord :=
  record_event
    (default new_record (infractions_of data !! to_key (studentId msg)))
    (new_event d msg).

(** A sequence of [recordInfraction] requests handled one after the
    other: the replies, in order, and the final storage. *)
Fixpoint run_at (T : nat) (reqs : list (Dates * RecordMsg)) (data : Storage)
  : list Response * Storage :=
  match reqs with
  | [] => ([], data)
  | (d, msg) :: reqs =>
      let '(r, _, data') := recordInfraction_at T d msg data in
      let '(rs, data'') := run_at T reqs data' in
      (r :: rs, data'')
  end.

(** A request of identity [id] that was accepted. *)
Definition accepted_for (id : string) (msg : RecordMsg) (r : Response) : bool :=
  ok r && bool_decide (studentId msg = Some id).

(** The number of accepted requests of [id] among requests and replies. *)
Fixpoint accepted (id : string) (reqs : list (Dates * RecordMsg))
    (rs : list Response) : nat :=
  match reqs, rs with
  | (_, msg) :: reqs, r :: rs =>
      (if accepted_for id msg r then 1 else 0) + accepted id reqs rs
  | _, _ => 0
  end.

(** What the ledger says of identity [id] once [n] of its requests were
    accepted, for threshold [T]. *)
Definition tally (T : nat) (id : string) (data : Storage) (n : nat) : Prop :=
  (Active data id -> warnings_at data id = n /\ n <= T) /\
  (Blocked data id -> n = T + 1).

(** *** What the handlers keep true of the ledger *)

(** The record of every identity has [count] equal to [warnings], at most
    as many as its events; an Active identity has at most
    [INFRACTION_THRESHOLD] warnings and a Blocked one exactly one more.
    Every block record belongs to an identity with a record, whose count
    and last five events it holds. Identities are non-empty names that no
    object inherits. *)
Definition well_kept (data : Storage) : Prop :=
  (forall (id : string) (r : IdentityRecord),
     infractions_of data !! id = Some r ->
     id <> "" /\ inherited_key id = false /\
     count r = warnings r /\ count r <= length (events r) /\
     (Active data id -> warnings r <= INFRACTION_THRESHOLD) /\
     (Blocked data id -> warnings r = INFRACTION_THRESHOLD + 1)) /\
  (forall (id : string) (b : BlockRecord),
     blockedIds_of data !! id = Some b ->
     exists r : IdentityRecord,
       infractions_of data !! id = Some r /\
       reason b = "Exceeded infraction threshold" /\
       totalInfractions b = count r /\
       lastEvents b = slice_last 5 (events r)).

(** *** Tabs and windows *)

(** What the service worker reads of a tab. *)
Record Tab := {
  tab_url : option string;
  openerTabId : option Z
}.

(** The messages the service worker sends to content scripts. *)
Inductive TabMessage :=
| tabActivated (url : string)
| newTabCreated
| browserLostFocus.

(** The [chrome.tabs.onActivated] listener: the tab the message goes to and
    the message, when [chrome.tabs.get] finds the tab and it has a url. *)
Definition onActivated (tabId : Z) (tab : option Tab)
  : option (Z * TabMessage) :=
  match tab with
  | Some t =>
      if truthy_str (tab_url t)
      then Some (tabId, tabActivated (or_empty (tab_url t)))
      else None
  | None => None
  end.

(** The [chrome.tabs.onCreated] listener: the opener is told. *)
Definition onCreated (tab : Tab) : option (Z * TabMessage) :=
  match openerTabId tab with
  | Some opener => if (opener =? 0)%Z then None else Some (opener, newTabCreated)
  | None => None
  end.

(** *** Sample requests *)

Definition at_noon : Dates :=
  {| eventTime := "2024-05-01T12:00:00.000Z";
     blockTime := "2024-05-01T12:00:00.001Z" |}.

Definition no_face_of (id : string) : RecordMsg :=
  {| studentId := Some id;
     infractionType := Some "NO_FACE";
     details := Some "Face not visible in camera";
     page := Some "https://exam.example/paper" |}.

Definition three_requests : list (Dates * RecordMsg) :=
  [ (at_noon, no_face_of "s1"); (at_noon, no_face_of "s1");
    (at_noon, no_face_of "s1") ].

(** The ledger after one infraction of "s1", and after three. *)
Definition one_warning : Storage :=
  (recordInfraction at_noon (no_face_of "s1") empty_storage).2.
Definition after_three : Storage :=
  (run_at INFRACTION_THRESHOLD three_requests empty_storage).2.

End Background.

(** ** content.js: the content script *)

Module Content.
Import JS.

Local Open Scope Z_scope.

(** A call [recordInfraction(type, details)] made by a detector. *)
Record Emission := {
  e_type : string;
  e_details : string
}.

(** A call [console.warn(label, error)]. The script wraps each of these
    calls in a [try] of its own, so that the call is made and the caller
    continues whether or not the console accepts it. *)
Record ConsoleCall := {
  label : string;
  error : string
}.

(** The outcome of evaluating code that may throw. *)
Inductive Outcome (A : Type) : Type :=
| Returns (a : A)
| Throws (err : string).
Arguments Returns {A} a.
Arguments Throws {A} err.

(** *** The warning overlay and the recording of infractions *)

(** A notice put on the page by [showWarningOverlay]. *)
Record Notice := {
  shown_at : Z;
  text : string;
  severity : string
}.

(** [showWarningOverlay(msg, severity)] when [Date.now()] reads [now]:
    the notice displayed, if any, and the new [lastWarningTime]. *)
Definition showWarningOverlay (now : Z) (msg sev : string)
    (lastWarningTime : Z) : option Notice * Z :=
  if now - lastWarningTime <? 1000 then (None, lastWarningTime)
  else (Some {| shown_at := now; text := "⚠️ " +:+ msg; severity := sev |},
        now).

(** The request a detector's call submits for a student id that is set. *)
Definition request_of (studentId : option string) (href : string)
    (e : Emission) : Background.RecordMsg :=
  {| Background.studentId := studentId;
     Background.infractionType := Some (e_type e);
     Background.details := Some (e_details e);
     Background.page := Some href |}.

(** [recordInfraction(type, details)] on the page at [href]: the message
    sent to the service worker, none without a student id. *)
Definition recordInfraction (studentId : option string) (href : string)
    (e : Emission) : option Background.RecordMsg :=
  if negb (truthy_str studentId) then None
  else Some (request_of studentId href e).

Definition newline : string := String (Ascii.ascii_of_nat 10) "".

(** The text of the warning shown for a reply. *)
Definition warning_text (r : Background.Response) : string :=
  default "undefined" (Background.r_message r) +:+ newline +:+ "Warning " +:+
  from_option pretty "undefined" (Background.r_warnings r) +:+ "/2".

(** What happens on the page, as far as notices and requests go. *)
Inductive PageEvent :=
| Infraction (e : Emission)
    (* a detector or input guard calls [recordInfraction] *)
| Reply (response : option Background.Response) (now : Z)
    (* the callback of an earlier request runs *)
| Overlay (msg sev : string) (now : Z).
    (* a detector calls [showWarningOverlay] itself *)

Record Page := {
  lastWarningTime : Z;
  sent : list Background.RecordMsg;   (* requests submitted, oldest first *)
  shown : list Notice;                (* notices displayed, oldest first *)
  enforced : bool                     (* [enforceBlock] has run *)
}.

Definition initial_page : Page :=
  {| lastWarningTime := 0; sent := []; shown := []; enforced := false |}.

Definition show (now : Z) (msg sev : string) (p : Page) : Page :=
  let '(notice, last) := showWarningOverlay now msg sev (lastWarningTime p) in
  {| lastWarningTime := last;
     sent := sent p;
     shown := shown p ++ from_option (fun n => [n]) [] notice;
     enforced := enforced p |}.

Definition page_step (studentId : option string) (href : string)
    (p : Page) (ev : PageEvent) : Page :=
  match ev with
  | Infraction e =>
      {| lastWarningTime := lastWarningTime p;
         sent := sent p ++
           from_option (fun m => [m]) [] (recordInfraction studentId href e);
         shown := shown p;
         enforced := enforced p |}
  | Reply None _ => p
  | Reply (Some r) now =>
      if bool_decide (Background.r_blocked r = Some true) then
        {| lastWarningTime := lastWarningTime p; sent := sent p;
           shown := shown p; enforced := true |}
      else if Background.ok r then show now (warning_text r) "warning" p
      else p
  | Overlay msg sev now => show now msg sev p
  end.

Definition page_run (studentId : option string) (href : string)
    (evs : list PageEvent) (p : Page) : Page :=
  foldl (page_step studentId href) p evs.

(** The infractions of a sequence of page events. *)
Definition infractions_in (evs : list PageEvent) : list Emission :=
  omap (fun ev => match ev with Infraction e => Some e | _ => None end) evs.

(** Any two notices of a list, the earlier and the later, are at least
    [gap] milliseconds apart. *)
Definition spaced (gap : Z) (ns : list Notice) : Prop :=
  forall (i j : nat) (a b : Notice),
    (i < j)%nat -> ns !! i = Some a -> ns !! j = Some b ->
    gap <= shown_at b - shown_at a.

(** What the script maintains: the notices shown so far are spaced, and none
    is later than [lastWarningTime]. *)
Definition overlay_inv (p : Page) : Prop :=
  spaced 1000 (shown p) /\
  forall a, a ∈ shown p -> shown_at a <= lastWarningTime p.

(** *** Multiple monitors *)

Record Screen := {
  screen_width : Z;
  screen_height : Z;
  isExtended : option bool
}.

(** What [detectMultipleMonitors] reads of [window]. [getScreenDetails] is
    [None] when the window has no such member; otherwise it is the outcome
    of awaiting the call and reading [screens.length], with [Returns None]
    for details without [screens]. *)
Record Window := {
  screen : option Screen;
  screenX : Z;
  screenLeft : Z;
  screenY : Z;
  screenTop : Z;
  getScreenDetails : option (Outcome (option Z))
}.

(** The fields of the result the callers read. *)
Record MonitorResult := {
  detected : bool;
  reason : option string;
  screenCount : option Z
}.

Definition not_detected : MonitorResult :=
  {| detected := false; reason := None; screenCount := None |}.

Definition ultra_wide : string :=
  "Ultra-wide display detected (possible multiple monitors)".
Definition outside_bounds : string :=
  "Window positioned outside primary screen bounds".
Definition extended_display : string :=
  "Extended display mode detected via Screen Details API".
Definition multiple_displays (n : Z) : string :=
  "Multiple displays detected: " +:+ pretty n +:+ " screens".

(** [screenWidth / screenHeight > 2.5] on integers. The quotient of two
    integers below 2^50 exceeds 2.5 as a double exactly when it does as a
    fraction; a zero height gives an infinity or NaN. *)
Definition isUltraWide (screenWidth screenHeight : Z) : bool :=
  if screenHeight =? 0 then 0 <? screenWidth
  else if 0 <? screenHeight then 5 * screenHeight <? 2 * screenWidth
  else 2 * screenWidth <? 5 * screenHeight.

(** [a || b] on numbers *)
Definition or_num (a b : Z) : Z := if a =? 0 then b else a.

(** The window position read by the check:
    [window.screenX || window.screenLeft] and the like. *)
Definition currentX (w : Window) : Z := or_num (screenX w) (screenLeft w).
Definition currentY (w : Window) : Z := or_num (screenY w) (screenTop w).

(** The position is farther than the margin of 100 from the screen. *)
Definition outside (w : Window) (s : Screen) : Prop :=
  currentX w < -100 \/ currentY w < -100 \/
  screen_width s + 100 < currentX w \/ screen_height s + 100 < currentY w.

(** The body of the [try] of [detectMultipleMonitors]. Reading
    [window.screen.width] throws when the window has no screen. *)
Definition monitor_body (w : Window) : Outcome MonitorResult :=
  match screen w with
  | None => Throws "TypeError: Cannot read properties of undefined"
  | Some s =>
      let screenWidth := screen_width s in
      let screenHeight := screen_height s in
      if isUltraWide screenWidth screenHeight then
        Returns {| detected := true; reason := Some ultra_wide;
                   screenCount := None |}
      else
        if (currentX w <? -100) || (currentY w <? -100) ||
           (screenWidth + 100 <? currentX w) ||
           (screenHeight + 100 <? currentY w)
        then
          Returns {| detected := true; reason := Some outside_bounds;
                     screenCount := None |}
        else if bool_decide (isExtended s = Some true) then
          Returns {| detected := true; reason := Some extended_display;
                     screenCount := None |}
        else
          match getScreenDetails w with
          | Some (Returns (Some n)) =>
              if 1 <? n then
                Returns {| detected := true;
                           reason := Some (multiple_displays n);
                           screenCount := Some n |}
              else Returns not_detected
          | Some (Returns None) => Returns not_detected
          | Some (Throws _) => Returns not_detected
              (* the inner [catch]: "this is ok", nothing is logged *)
          | None => Returns not_detected
          end
  end.

(** [detectMultipleMonitors()]: the result and the console calls made. *)
Definition detectMultipleMonitors (w : Window)
    : MonitorResult * list ConsoleCall :=
  match monitor_body w with
  | Returns r => (r, [])
  | Throws err =>
      (not_detected, [ {| label := "Monitor detection error:"; error := err |} ])
  end.

(** The periodic check of [startMonitorDetection]: the infraction recorded,
    if any, and the console calls. *)
Definition monitor_check (w : Window) : list Emission * list ConsoleCall :=
  let '(result, log) := detectMultipleMonitors w in
  (if detected result
   then [ {| e_type := "MULTIPLE_MONITORS";
             e_details := default "undefined" (reason result) |} ]
   else [],
   log).

(** *** Face presence *)

(** A frame read from the canvas: [data] holds four bytes (red, green,
    blue, alpha) for each pixel, row by row; the dimensions are not
    negative. *)
Record ImageData := {
  data : list Z;
  img_width : Z;
  img_height : Z
}.

(** [data[i]] for an integer index: undefined outside the buffer. *)
Definition read (bytes : list Z) (i : Z) : option Z :=
  if i <? 0 then None else bytes !! Z.to_nat i.

(** The skin test of [detectFaceInImageData] on the three values read; a
    comparison with [undefined] is false. *)
Definition skin (r g b : option Z) : bool :=
  match r, g, b with
  | Some r, Some g, Some b =>
      (95 <? r) && (40 <? g) && (20 <? b) &&
      (g <? r) && (b <? r) && (15 <? Z.abs (r - g))
  | _, _, _ => false
  end.

(** [regionSize = Math.min(width, height) / 4] need not be an integer, and
    the loop variables start from [center - regionSize]: they are kept here
    in quarters, an integer [v4] standing for the coordinate [v4 / 4].
    Doubles compute exactly on such values. *)

(** The values, in quarters, taken by [v] in
    [for (v = lo; v < hi; v++)], where [lo4] and [hi4] are the bounds in
    quarters. *)
Definition quarter_steps (lo4 hi4 : Z) : list Z :=
  (fun k : nat => lo4 + 4 * Z.of_nat k) <$>
    seq 0 (Z.to_nat ((hi4 - lo4 + 3) / 4)).

(** [x >= 0 && x < width && y >= 0 && y < height] *)
Definition in_frame (img : ImageData) (x4 y4 : Z) : bool :=
  (0 <=? x4) && (x4 <? 4 * img_width img) &&
  (0 <=? y4) && (y4 <? 4 * img_height img).

(** The index [i = (y * width + x) * 4], an integer. *)
Definition index_of (img : ImageData) (x4 y4 : Z) : Z :=
  y4 * img_width img + x4.

(** The skin test at a position. *)
Definition skin_at (img : ImageData) (x4 y4 : Z) : bool :=
  let i := index_of img x4 y4 in
  skin (read (data img) i) (read (data img) (i + 1)) (read (data img) (i + 2)).

(** The body of the inner loop on the counters
    [(skinPixels, totalPixels)]. *)
Definition sample (img : ImageData) (y4 : Z) (acc : Z * Z) (x4 : Z) : Z * Z :=
  if in_frame img x4 y4 then
    ((if skin_at img x4 y4 then fst acc + 1 else fst acc), snd acc + 1)
  else acc.

(** [(skinPixels / totalPixels) > 0.1]. With no pixel counted the quotient
    is NaN and the comparison false; otherwise, below 2^50 pixels, the
    double quotient exceeds the double 0.1 exactly when the fraction
    exceeds one tenth. *)
Definition exceeds_tenth (skinPixels totalPixels : Z) : bool :=
  (0 <? totalPixels) && (totalPixels <? 10 * skinPixels).

Definition detectFaceInImageData (img : ImageData) : bool :=
  let centerX := img_width img / 2 in
  let centerY := img_height img / 2 in
  let regionSize4 := Z.min (img_width img) (img_height img) in
  let ys := quarter_steps (4 * centerY - regionSize4) (4 * centerY + regionSize4) in
  let xs := quarter_steps (4 * centerX - regionSize4) (4 * centerX + regionSize4) in
  let '(skinPixels, totalPixels) :=
    foldl (fun acc y4 => foldl (sample img y4) acc xs) (0, 0) ys in
  exceeds_tenth skinPixels totalPixels.








(** The three-in-a-row counter that the face and the audio checks each
    keep: a hit adds one and, at three, fires and starts over; a miss
    starts over. The result is the new counter and whether it fired. *)
Definition streak3 (hit : bool) (consecutive : nat) : nat * bool :=
  if hit then
    let c := S consecutive in
    if (3 <=? c)%nat then (O, true) else (c, false)
  else (O, false).

Definition NO_FACE : Emission :=
  {| e_type := "NO_FACE"; e_details := "Face not visible in camera" |}.
Definition MULTIPLE_FACES : Emission :=
  {| e_type := "MULTIPLE_FACES"; e_details := "Multiple faces detected" |}.



Section FaceDetection.

(** The bright-cell count of [detectMultipleFaces] is not modelled: the
    interval callback is given its verdict on the frame. *)
Variable detectMultipleFaces : ImageData -> bool.

(** One run of the interval callback of [startFaceDetection] on the frame
    of the video element: the new [consecutiveNoFace] and the infractions
    recorded. Without a video width the callback returns at once, and
    without a height [getImageData] throws out of it. *)
Definition faceDetectionTick (frame : ImageData) (consecutiveNoFace : nat)
    : nat * list Emission :=
  if img_width frame =? 0 then (consecutiveNoFace, [])
  else if img_height frame =? 0 then (consecutiveNoFace, [])
  else
    let faceDetected := detectFaceInImageData frame in
    let '(c, fire) := streak3 (negb faceDetected) consecutiveNoFace in
    (c, (if fire then [NO_FACE] else []) ++
        (if detectMultipleFaces frame then [MULTIPLE_FACES] else [])).



End FaceDetection.



(** *** Audio *)

(** [analyzer.frequencyBinCount], half of [fftSize = 256]. *)
Definition bufferLength : Z := 128.

(** [dataArray.reduce((a, b) => a + b, 0)] *)
Definition total (dataArray : list Z) : Z := foldl Z.add 0 dataArray.

(** [average > 30] for [average = total / bufferLength]; the division by a
    power of two is exact. *)
Definition above_threshold (dataArray : list Z) : bool :=
  30 * bufferLength <? total dataArray.

(** [average.toFixed(0)]: the nearest integer, the larger one on a tie. *)
Definition level (dataArray : list Z) : Z :=
  (2 * total dataArray + bufferLength) / (2 * bufferLength).

Definition AUDIO_DETECTED (dataArray : list Z) : Emission :=
  {| e_type := "AUDIO_DETECTED";
     e_details := "Audio level: " +:+ pretty (level dataArray) |}.

(** One run of the interval callback of [startAudioMonitoring] on the
    bytes [getByteFrequencyData] wrote: the new [consecutiveNoise] and the
    infractions recorded. *)
Definition audioDetectionTick (dataArray : list Z) (consecutiveNoise : nat)
    : nat * list Emission :=
  let '(c, fire) := streak3 (above_threshold dataArray) consecutiveNoise in
  (c, if fire then [AUDIO_DETECTED dataArray] else []).

Fixpoint audioDetectionRun (buffers : list (list Z)) (consecutiveNoise : nat)
    : nat * list Emission :=
  match buffers with
  | [] => (consecutiveNoise, [])
  | b :: buffers =>
      let '(c, es) := audioDetectionTick b consecutiveNoise in
      let '(c', es') := audioDetectionRun buffers c in
      (c', es ++ es')
  end.







(** *** Streaks *)

(** The number of hits in a row at the end of a sequence of checks. *)
Definition streak (hits : list bool) : nat :=
  foldl (fun (n : nat) (h : bool) => if h then S n else O) O hits.




(** The mean magnitude of a buffer is [v]. *)
Definition mean_is (v : Z) (dataArray : list Z) : Prop :=
  total dataArray = v * bufferLength.

(** *** The time of the last notice *)

(** The time of the last notice displayed, 0 before the first. *)
Definition last_shown (p : Page) : Z :=
  from_option shown_at 0 (last (shown p)).

(** *** Screen sharing software *)

Definition indicators : list string :=
  [ "anydesk"; "teamviewer"; "quickassist"; "quick assist"; "remote desktop";
    "chrome remote"; "zoom share"; "webex"; "gotomeeting"; "join.me";
    "screenconnect"; "logmein"; "splashtop"; "vnc viewer"; "remotepc" ].

(** [hay.includes(needle)] *)
Fixpoint includes (hay needle : string) : bool :=
  String.prefix needle hay ||
  match hay with
  | EmptyString => false
  | String _ rest => includes rest needle
  end.

(** What [detectScreenSharingProcesses] reads of the page: the title and
    the URL in lower case, the first 5000 characters of the text of the
    body in lower case, and whether [window.chrome.app] is there. *)
Record PageText := {
  pageTitle : string;
  pageUrl : string;
  bodyText : string;
  chrome_app : bool
}.

(** The test of the loop body for one indicator. *)
Definition mentions (t : PageText) (indicator : string) : bool :=
  includes (pageTitle t) indicator || includes (pageUrl t) indicator ||
  includes (bodyText t) indicator.

Definition detectScreenSharingProcesses (t : PageText) : option string :=
  match List.find (mentions t) indicators with
  | Some indicator => Some indicator
  | None => if chrome_app t then Some "chrome remote desktop" else None
  end.

(** The detection step of the interval callback of
    [startScreenShareMonitoring] when [Date.now()] reads [now]: the calls
    of [recordInfraction] and [showWarningOverlay] it makes, in order. *)
Definition screenShareCheck (t : PageText) (now : Z) : list PageEvent :=
  match detectScreenSharingProcesses t with
  | Some found =>
      [ Infraction {| e_type := "SCREEN_SHARE";
                      e_details := "Detected: " +:+ found |};
        Overlay ("Screen sharing software detected: " +:+ found +:+
                 ". This is not allowed during exams!") "error" now ]
  | None => []
  end.

(** *** Pointer movements *)

(** An entry of [mouseMovements]. *)
Record Move := {
  move_x : Z;
  move_y : Z;
  move_time : Z
}.

(** The [mousemove] listener of [startEyeTracking]: the new
    [mouseMovements]. *)
Definition on_mousemove (mouseMovements : list Move) (m : Move) : list Move :=
  let pushed := mouseMovements ++ [m] in
  if (50 <? length pushed)%nat then drop 1 pushed else pushed.

(** [dt > 0 && (dx / dt > 2 || dy / dt > 2)] for two successive entries;
    for [dt > 0] a quotient of integers exceeds 2 exactly when the
    numerator exceeds twice the denominator. *)
Definition rapid (a b : Move) : bool :=
  let dx := Z.abs (move_x b - move_x a) in
  let dy := Z.abs (move_y b - move_y a) in
  let dt := move_time b - move_time a in
  (0 <? dt) && ((2 * dt <? dx) || (2 * dt <? dy)).

(** The value of [rapidChanges] after the loop over [recentMoves]. *)
Fixpoint rapidChanges (recentMoves : list Move) : nat :=
  match recentMoves with
  | a :: (b :: _) as rest =>
      ((if rapid a b then 1 else 0) + rapidChanges rest)%nat
  | _ => O
  end.

Definition EYE_MOVEMENT : Emission :=
  {| e_type := "EYE_MOVEMENT";
     e_details := "Suspicious rapid eye/mouse movements" |}.

(** One run of the interval callback of [startEyeTracking]: the new
    [mouseMovements] and [suspiciousPatterns] and the infractions
    recorded. *)
Definition eyeTrackingTick (mouseMovements : list Move)
    (suspiciousPatterns : nat) : list Move * nat * list Emission :=
  if (length mouseMovements <? 10)%nat
  then (mouseMovements, suspiciousPatterns, [])
  else
    let recentMoves := slice_last 20 mouseMovements in
    if (10 <? rapidChanges recentMoves)%nat then
      let s := S suspiciousPatterns in
      if (2 <=? s)%nat then ([], O, [EYE_MOVEMENT]) else ([], s, [])
    else ([], O, []).

(** *** Window movements *)

Definition moved_display : Emission :=
  {| e_type := "MULTIPLE_MONITORS";
     e_details := "Window moved to different display" |}.

(** One run of the two-second interval callback of
    [startMonitorDetection], with [(lastScreenX, lastScreenY)] as [last]:
    the new pair, the infraction recorded, if any, and the console calls. *)
Definition windowMoveTick (w : Window) (last : Z * Z)
    : (Z * Z) * list Emission * list ConsoleCall :=
  let currentX := screenX w in
  let currentY := screenY w in
  if (100 <? Z.abs (currentX - last.1)) || (100 <? Z.abs (currentY - last.2))
  then
    let '(result, log) := detectMultipleMonitors w in
    ((currentX, currentY), if detected result then [moved_display] else [], log)
  else ((currentX, currentY), [], []).

(** The callback run on the successive states of the window. *)
Fixpoint windowMoveRun (ws : list Window) (last : Z * Z)
    : (Z * Z) * list Emission :=
  match ws with
  | [] => (last, [])
  | w :: ws =>
      let '(last', es, _) := windowMoveTick w last in
      let '(last'', es') := windowMoveRun ws last' in
      (last'', es ++ es')
  end.

(** No step of the window between two runs of the callback exceeds 100 in
    either direction. *)
Fixpoint small_steps (last : Z * Z) (ws : list Window) : Prop :=
  match ws with
  | [] => True
  | w :: ws =>
      Z.abs (screenX w - last.1) <= 100 /\
      Z.abs (screenY w - last.2) <= 100 /\
      small_steps (screenX w, screenY w) ws
  end.

(** The initial check of [startMonitorDetection]: [initialScreenCount],
    the calls of [recordInfraction] and [showWarningOverlay] made, and the
    console calls. *)
Definition initialMonitorCheck (w : Window) (now : Z)
    : Z * list PageEvent * list ConsoleCall :=
  let '(initialCheck, log) := detectMultipleMonitors w in
  if detected initialCheck then
    (or_num (default 0 (screenCount initialCheck)) 2,
     [ Infraction {| e_type := "MULTIPLE_MONITORS";
                     e_details := default "undefined" (reason initialCheck) |};
       Overlay "Multiple monitors detected! Please disconnect additional displays."
         "error" now ],
     log)
  else (1, [], log).

(** *** Messages from the service worker *)

(** The [chrome.runtime.onMessage] listener of the content script on the
    page at [href]: the infractions recorded. *)
Definition onMessage (monitoringActive : bool) (href : string)
    (msg : Background.TabMessage) : list Emission :=
  match msg with
  | Background.tabActivated url =>
      if monitoringActive && negb (String.eqb url href)
      then [ {| e_type := "TAB_SWITCH"; e_details := "Switched to: " +:+ url |} ]
      else []
  | Background.newTabCreated =>
      [ {| e_type := "NEW_TAB"; e_details := "New tab opened" |} ]
  | Background.browserLostFocus =>
      [ {| e_type := "EXTERNAL_APP";
           e_details := "Browser lost focus - possible external application" |} ]
  end.

(** *** The student id and the start of monitoring *)

(** [getStudentId()]: the stored id, [null] when reading the local storage
    throws. *)
Definition getStudentId (stored : Outcome (option string))
    : option string * list ConsoleCall :=
  match stored with
  | Returns id => (id, [])
  | Throws err =>
      (None, [ {| label := "LocalStorage access error:"; error := err |} ])
  end.

(** How the script comes to rest after [initializeMonitoring]. *)
Inductive Startup :=
| NoStudentId      (* no id was given: the page reloads *)
| SwitchId         (* the id is blocked and another is asked for *)
| Locked           (* the id is blocked: [enforceBlock] has run *)
| Monitoring.      (* [monitoringActive] is set, the detectors run *)

Section StudentId.

(** [String.prototype.trim], which the model does not look into. *)
Variable trim : string -> string.

(** [requireStudentId()] given the stored id and the answer to the prompt:
    the id returned and the id written to the local storage, if any. *)
Definition requireStudentId (stored : Outcome (option string))
    (prompted : option string) : option string * option string :=
  let id := (getStudentId stored).1 in
  if negb (truthy_str id) then
    if truthy_str prompted && negb (String.eqb (trim (or_empty prompted)) "")
    then (Some (trim (or_empty prompted)), Some (trim (or_empty prompted)))
    else (None, None)
  else (id, None).

(** [initializeMonitoring()] given the reply to the [isBlocked] message, if
    one comes, and the answer to the confirmation shown for a blocked id:
    the value of [studentId] and where the script comes to rest. *)
Definition initializeMonitoring (stored : Outcome (option string))
    (prompted : option string)
    (response : option (bool * property Background.BlockRecord))
    (switchId : bool) : option string * Startup :=
  let id0 := (getStudentId stored).1 in
  let studentId :=
    if negb (truthy_str id0) then (requireStudentId stored prompted).1
    else id0 in
  if negb (truthy_str studentId) then (studentId, NoStudentId)
  else
    match response with
    | Some (true, _) =>
        if switchId then (studentId, SwitchId) else (studentId, Locked)
    | _ => (studentId, Monitoring)
    end.

End StudentId.

(** *** Keyboard shortcuts *)

(** What the [keydown] listener reads of the event. *)
Record KeyEvent := {
  key : string;
  ctrlKey : bool;
  metaKey : bool;
  shiftKey : bool
}.

Definition forbidden : list string := [ "c"; "v"; "x"; "a"; "s"; "p" ].

Definition shortcut (k : string) : Emission :=
  {| e_type := "COPY_PASTE"; e_details := "Keyboard shortcut: Ctrl+" +:+ k |}.
Definition dev_tools : Emission :=
  {| e_type := "COPY_PASTE"; e_details := "Dev tools attempt" |}.

Section Keydown.

(** [String.prototype.toLowerCase], which the model does not look into. *)
Variable toLowerCase : string -> string.

(** The [keydown] listener of [setupClipboardProtection]: the infraction
    recorded, if any, and whether [preventDefault] was called. *)
Definition on_keydown (e : KeyEvent) : list Emission * bool :=
  let ctrl := ctrlKey e || metaKey e in
  if ctrl && bool_decide (toLowerCase (key e) ∈ forbidden) then
    ([shortcut (key e)], true)
  else if String.eqb (key e) "F12" ||
          (ctrl && shiftKey e &&
           bool_decide (toLowerCase (key e) ∈ [ "i"; "j"; "c" ]))
  then ([dev_tools], true)
  else ([], false).

End Keydown.

(** *** Sample inputs *)

Definition ultra_wide_window : Window :=
  {| screen := Some {| screen_width := 3000; screen_height := 1000;
                       isExtended := None |};
     screenX := 0; screenLeft := 0; screenY := 0; screenTop := 0;
     getScreenDetails := None |}.

Definition single_monitor_window : Window :=
  {| screen := Some {| screen_width := 1920; screen_height := 1080;
                       isExtended := Some false |};
     screenX := 40; screenLeft := 40; screenY := 25; screenTop := 25;
     getScreenDetails := Some (Returns (Some 1)) |}.



(** Three infractions within one second, each answered with a warning. *)
Definition warned (n : nat) : Background.Response :=
  {| Background.ok := true; Background.r_blocked := None;
     Background.r_reason := None;
     Background.r_infractions := Some n; Background.r_warnings := Some n;
     Background.r_message := Some "Window lost focus";
     Background.r_blockReason := None |}.

Definition WINDOW_BLUR : Emission :=
  {| e_type := "WINDOW_BLUR"; e_details := "Window lost focus" |}.

Definition busy_second : list PageEvent :=
  [ Infraction WINDOW_BLUR; Reply (Some (warned 1)) 1714564800000;
    Infraction WINDOW_BLUR; Reply (Some (warned 2)) 1714564800300;
    Infraction WINDOW_BLUR; Reply (Some (warned 3)) 1714564800900 ].

Definition black_pixel : list Z := [0; 0; 0; 255].




(** An 8x8 frame that is black all over. *)
Definition black_frame : ImageData :=
  {| data := mjoin (replicate 64 black_pixel); img_width := 8; img_height := 8 |}.

(** A page that names two of the listed programs. *)
Definition help_page : PageText :=
  {| pageTitle := "exam help";
     pageUrl := "https://exam.example/paper";
     bodyText := "install teamviewer or anydesk and call me";
     chrome_app := false |}.

(** Twelve pointer positions, a millisecond and ten pixels apart. *)
Definition sweep : list Move :=
  (fun k : nat => {| move_x := 10 * Z.of_nat k; move_y := 0;
                     move_time := Z.of_nat k |}) <$> seq 0 12.

(** An ultra-wide window dragged to the right in steps of 100. *)
Definition drifting : list Window :=
  (fun k : nat =>
     {| screen := Some {| screen_width := 3000; screen_height := 1000;
                          isExtended := None |};
        screenX := 100 * Z.of_nat (S k); screenLeft := 0;
        screenY := 0; screenTop := 0;
        getScreenDetails := None |}) <$> seq 0 25.

(** A buffer whose every bin holds [v]. *)
Definition flat_buffer (v : Z) : list Z := replicate (Z.to_nat bufferLength) v.

End Content.

(** * The control panel *)

Module Popup.
Import JS Background.

(** The local status [updateStatus] displays for the student [id]. A
    number read from an inherited member is undefined. *)
Record LocalStatus := {
  infractionCount : option nat;
  warningCount : option nat;
  warnings_flagged : bool;     (* the warnings carry the class status-blocked *)
  shows_blocked : bool;        (* "BLOCKED" rather than "Active" *)
  recentEvents : list InfractionEvent
}.

(** The callback of the [getStatus] message in [updateStatus], as far as
    the local status goes. *)
Definition localStatus (id : string)
    (response : gmap string IdentityRecord * gmap string BlockRecord)
    : LocalStatus :=
  let studentData := js_get response.1 id in
  let isBlocked := js_get response.2 id in
  let infractionCount :=
    match studentData with
    | Own r => Some (count r)
    | Inherited => None
    | Undefined => Some 0
    end in
  let warningCount :=
    match studentData with
    | Own r => Some (warnings r)
    | Inherited => None
    | Undefined => Some 0
    end in
  {| infractionCount := infractionCount;
     warningCount := warningCount;
     warnings_flagged := from_option (fun w : nat => (2 <=? w)%nat) false warningCount;
     shows_blocked := truthy isBlocked;
     recentEvents :=
       match studentData with
       | Own r => reverse (slice_last 3 (events r))
       | _ => []
       end |}.

End Popup.

(** * A page and the service worker together *)

Module Session.
Import JS Background Content.

(** One call of the content script's [recordInfraction] on the page of
    the student, the handling of its request by the service worker with
    threshold [T], and the callback that runs on the page with the reply
    when [Date.now()] reads [now]. *)
Definition submit_at (T : nat) (studentId : option string) (href : string)
    (s : Page * Storage) (x : Dates * Z * Emission) : Page * Storage :=
  let '(d, now, e) := x in
  let p := page_step studentId href s.1 (Infraction e) in
  match Content.recordInfraction studentId href e with
  | None => (p, s.2)
  | Some msg =>
      let out := recordInfraction_at T d msg s.2 in
      (page_step studentId href p (Reply (Some out.1.1) now), out.2)
  end.

(** The infractions of a sitting, one after the other. *)
Definition sitting_at (T : nat) (studentId : option string) (href : string)
    (xs : list (Dates * Z * Emission)) (s : Page * Storage) : Page * Storage :=
  foldl (submit_at T studentId href) s xs.

(** What holds of the page and the ledger after [k] infractions of the
    student [id]. *)
Definition after (T : nat) (id : string) (k : nat) (s : Page * Storage)
    : Prop :=
  enforced s.1 = (T <? k)%nat /\
  (length (shown s.1) <= min k T)%nat /\
  count_at s.2 id = min k (T + 1) /\
  warnings_at s.2 id = min k (T + 1) /\
  length (events_at s.2 id) = min k (T + 1) /\
  (Blocked s.2 id <-> (T < k)%nat).

(** An infraction that one of the detectors and listeners of the content
    script records on some input. *)
Inductive detects : Emission -> Prop :=
| by_message active href m e :
    e ∈ onMessage active href m -> detects e
| by_monitor_check w e :
    e ∈ (monitor_check w).1 -> detects e
| by_initial_check w now e :
    e ∈ infractions_in (initialMonitorCheck w now).1.2 -> detects e
| by_window_move w last e :
    e ∈ (windowMoveTick w last).1.2 -> detects e
| by_screen_share t now e :
    e ∈ infractions_in (screenShareCheck t now) -> detects e
| by_eye_tracking ms n e :
    e ∈ (eyeTrackingTick ms n).2 -> detects e
| by_face multiple frame c e :
    e ∈ (faceDetectionTick multiple frame c).2 -> detects e
| by_audio buffer c e :
    e ∈ (audioDetectionTick buffer c).2 -> detects e
| by_keydown lower k e :
    e ∈ (on_keydown lower k).1 -> detects e.

(** Four infractions of one sitting. *)
Definition four_blurs : list (Dates * Z * Emission) :=
  [ (at_noon, 1714564800000%Z, WINDOW_BLUR);
    (at_noon, 1714564802000%Z, WINDOW_BLUR);
    (at_noon, 1714564804000%Z, WINDOW_BLUR);
    (at_noon, 1714564806000%Z, WINDOW_BLUR) ].

End Session.

(** Membership in a list of literals, by evaluation. *)
Ltac listed := apply (bool_decide_unpack _); vm_compute; exact I.


(** * Properties of the ledger *)

Module BackgroundFacts.
Import JS Background.

(** ** Reads *)

Lemma truthy_str_Some (s : option string) :
  truthy_str s = true <-> exists k, s = Some k /\ k <> "".
Proof.
  destruct s as [k|]; simpl.
  - rewrite negb_true_iff. split.
    + intros H. exists k. split; [done|]. intros ->. discriminate.
    + intros (k' & [= <-] & Hk). by apply String.eqb_neq.
  - split; [done | by intros (k & ? & _)].
Qed.

Lemma truthy_own {A} (obj : gmap string A) (k : string) :
  is_Some (obj !! k) -> truthy (js_get obj k) = true.
Proof. intros [a Ha]. unfold js_get. by rewrite Ha. Qed.

(** Where a read is falsy the key is neither an own property nor a member
    of [Object.prototype]; a read of the same key on any other plain object
    is then an own property or undefined. *)
Lemma not_blocked_not_inherited {A} (obj : gmap string A) (k : string) :
  truthy (js_get obj k) = false <-> obj !! k = None /\ inherited_key k = false.
Proof.
  unfold js_get. destruct (obj !! k), (inherited_key k); simpl;
    split; try done; intros [? ?]; done.
Qed.

Lemma slice_last_suffix {A} (n : nat) (l : list A) :
  take (length l - n) l ++ slice_last n l = l.
Proof. apply take_drop. Qed.

Lemma slice_last_length {A} (n : nat) (l : list A) :
  length (slice_last n l) = min n (length l).
Proof. unfold slice_last. rewrite length_drop. lia. Qed.

(** ** The three outcomes of [recordInfraction] *)

Lemma record_no_id T d msg data :
  truthy_str (studentId msg) = false ->
  recordInfraction_at T d msg data = (no_id, [], data).
Proof. intros H. unfold recordInfraction_at. by rewrite H. Qed.

Lemma record_rejected T d msg data :
  truthy_str (studentId msg) = true ->
  truthy (js_get (blockedIds_of data) (to_key (studentId msg))) = true ->
  recordInfraction_at T d msg data = (already_blocked, [], data).
Proof. intros H1 H2. unfold recordInfraction_at. by rewrite H1, H2. Qed.

Lemma record_accepted T d msg data :
  truthy_str (studentId msg) = true ->
  truthy (js_get (blockedIds_of data) (to_key (studentId msg))) = false ->
  let sid := to_key (studentId msg) in
  let r1 := next_record d msg data in
  let out := recordInfraction_at T d msg data in
  ok out.1.1 = true /\
  r_infractions out.1.1 = Some (count r1) /\
  r_warnings out.1.1 = Some (warnings r1) /\
  infractions_of out.2 = <[sid := r1]> (infractions_of data) /\
  blockedIds_of out.2 =
    (if (T <? warnings r1)%nat
     then <[sid := block_record d r1]> (blockedIds_of data)
     else blockedIds_of data) /\
  (r_blocked out.1.1, r_blockReason out.1.1) =
    (if (T <? warnings r1)%nat
     then (Some true, Some (reason (block_record d r1)))
     else (None, None)).
Proof.
  intros H1 H2. cbv zeta. unfold recordInfraction_at, next_record.
  rewrite H1, H2. cbv beta iota zeta delta [negb].
  destruct (_ <? _)%nat; cbn [fst snd]; repeat split.
Qed.

(** A request is accepted exactly when it names an identity and that
    identity does not read as blocked. *)
Lemma accepted_iff T d msg data :
  ok (recordInfraction_at T d msg data).1.1 = true <->
  truthy_str (studentId msg) = true /\
  truthy (js_get (blockedIds_of data) (to_key (studentId msg))) = false.
Proof.
  destruct (truthy_str (studentId msg)) eqn:H1.
  - destruct (truthy (js_get (blockedIds_of data) (to_key (studentId msg)))) eqn:H2.
    + rewrite record_rejected by done. simpl. split; [done | intros [? ?]; done].
    + split; [done|]. intros _. by apply record_accepted.
  - rewrite record_no_id by done. simpl. split; [done | intros [? ?]; done].
Qed.

(** A request leaves every other identity as it was. *)
Lemma record_other T d msg data (j : string) :
  j <> to_key (studentId msg) ->
  let out := recordInfraction_at T d msg data in
  infractions_of out.2 !! j = infractions_of data !! j /\
  blockedIds_of out.2 !! j = blockedIds_of data !! j.
Proof.
  intros Hj. simpl.
  destruct (truthy_str (studentId msg)) eqn:H1;
    [| by rewrite record_no_id].
  destruct (truthy (js_get (blockedIds_of data) (to_key (studentId msg)))) eqn:H2;
    [by rewrite record_rejected |].
  destruct (record_accepted T d msg data H1 H2) as (_ & _ & _ & Hi & Hb & _).
  rewrite Hi, Hb. split.
  - by rewrite lookup_insert_ne.
  - destruct (_ <? _)%nat; [by rewrite lookup_insert_ne | done].
Qed.

(** ** Warnings and the block *)

Lemma Active_or_Blocked data id : {Active data id} + {Blocked data id}.
Proof.
  unfold Active, Blocked. destruct (blockedIds_of data !! id); [right | left]; done.
Qed.

Lemma Active_not_Blocked data id : Active data id <-> ~ Blocked data id.
Proof.
  unfold Active, Blocked. rewrite eq_None_not_Some. done.
Qed.

Lemma tally_fresh T id data : fresh data id -> tally T id data 0.
Proof.
  intros [Hi Hb]. split.
  - intros _. unfold warnings_at. rewrite Hi. simpl. lia.
  - intros [b Hb']. congruence.
Qed.

Lemma tally_step T id d msg data n :
  tally T id data n ->
  let out := recordInfraction_at T d msg data in
  tally T id out.2 (n + if accepted_for id msg out.1.1 then 1 else 0).
Proof.
  intros [HA HB]. simpl.
  destruct (truthy_str (studentId msg)) eqn:H1; cycle 1.
  { rewrite record_no_id by done. simpl. rewrite Nat.add_0_r. by split. }
  destruct (truthy (js_get (blockedIds_of data) (to_key (studentId msg)))) eqn:H2.
  { rewrite record_rejected by done. simpl. rewrite Nat.add_0_r. by split. }
  apply truthy_str_Some in H1 as (k & Hk & Hne).
  destruct (decide (k = id)) as [-> | Hother].
  - (* an accepted request of [id] *)
    assert (Hacc : truthy_str (studentId msg) = true)
      by (apply truthy_str_Some; eauto).
    destruct (record_accepted T d msg data Hacc H2) as (Hok & _ & _ & Hi & Hb & _).
    unfold accepted_for. rewrite Hok, Hk, bool_decide_eq_true_2 by done.
    simpl. rewrite Hk in *. simpl in *.
    apply not_blocked_not_inherited in H2 as [Hnone _].
    destruct (HA Hnone) as [Hw Hle].
    assert (Hw1 : warnings (next_record d msg data) = n + 1).
    { unfold next_record. rewrite Hk. simpl. unfold warnings_at in Hw.
      destruct (infractions_of data !! id); simpl in *; lia. }
    unfold tally, Active, Blocked, warnings_at. rewrite Hi, Hb.
    rewrite lookup_insert_eq. simpl. simpl in Hw1. rewrite Hw1.
    destruct (T <? n + 1)%nat eqn:Hlt.
    + apply Nat.ltb_lt in Hlt. rewrite lookup_insert_eq. split; [done |].
      intros _. lia.
    + apply Nat.ltb_ge in Hlt. rewrite Hnone. split; [lia |].
      intros [? ?]; done.
  - (* a request of another identity *)
    assert (Hj : id <> to_key (studentId msg)) by (rewrite Hk; simpl; congruence).
    destruct (record_other T d msg data id Hj) as [Hi Hb].
    unfold accepted_for. rewrite Hk, bool_decide_eq_false_2 by congruence.
    rewrite andb_false_r, Nat.add_0_r.
    unfold tally, Active, Blocked, warnings_at in *. rewrite Hi, Hb. by split.
Qed.

Lemma tally_run T id reqs : forall data n,
  tally T id data n ->
  let out := run_at T reqs data in
  tally T id out.2 (n + accepted id reqs out.1).
Proof.
  induction reqs as [| [d msg] reqs IH]; intros data n Hn; simpl.
  - by rewrite Nat.add_0_r.
  - pose proof (tally_step T id d msg data n Hn) as Hstep. simpl in Hstep.
    destruct (recordInfraction_at T d msg data) as [[r ns] data'] eqn:E.
    simpl in Hstep. specialize (IH data' _ Hstep). simpl in IH.
    destruct (run_at T reqs data') as [rs data''] eqn:E'. simpl in *.
    by rewrite Nat.add_assoc.
Qed.

(** C1, as amended. Take an identity nothing is stored about and any
    sequence of [recordInfraction] requests, of this and of other
    identities, handled in order with threshold [T]; let [N] be the number
    of accepted requests of the identity. Then [N] is at most [T + 1], the
    identity is Blocked if and only if [N > T], and otherwise it is Active
    with [warnings] equal to [N]. *)
Theorem fresh_identity_blocked_iff (T : nat) (id : string)
    (reqs : list (Dates * RecordMsg)) (data : Storage) :
  fresh data id ->
  let out := run_at T reqs data in
  let N := accepted id reqs out.1 in
  N <= T + 1 /\
  (Blocked out.2 id <-> T < N) /\
  (~ T < N -> Active out.2 id /\ warnings_at out.2 id = N).
Proof.
  intros Hfresh out N.
  pose proof (tally_run T id reqs data 0 (tally_fresh T id data Hfresh)) as [HA HB].
  simpl in HA, HB. fold out in HA, HB. fold N in HA, HB.
  destruct (Active_or_Blocked out.2 id) as [Ha | Hb].
  - destruct (HA Ha) as [Hw Hle]. split; [lia |]. split.
    + split; [| lia]. intros Hb. by apply Active_not_Blocked in Ha.
    + intros _. by split.
  - specialize (HB Hb). split; [lia |]. split.
    + split; [lia | done].
    + lia.
Qed.

Lemma fresh_identity_blocked_iff_witness :
  let out := run_at INFRACTION_THRESHOLD three_requests empty_storage in
  let N := accepted "s1" three_requests out.1 in
  N <= INFRACTION_THRESHOLD + 1 /\
  (Blocked out.2 "s1" <-> INFRACTION_THRESHOLD < N) /\
  (~ INFRACTION_THRESHOLD < N -> Active out.2 "s1" /\ warnings_at out.2 "s1" = N).
Proof.
  apply (fresh_identity_blocked_iff INFRACTION_THRESHOLD "s1" three_requests
           empty_storage).
  split; reflexivity.
Defined.

(** C1 as stated fails: with the threshold of 2, three accepted requests of
    a fresh identity leave it Blocked, although 3 does not exceed
    [T + 1 = 3]. *)
Lemma third_infraction_blocks :
  let out := run_at INFRACTION_THRESHOLD three_requests empty_storage in
  let N := accepted "s1" three_requests out.1 in
  fresh empty_storage "s1" /\ N = 3 /\
  ~ (Blocked out.2 "s1" <-> N > INFRACTION_THRESHOLD + 1).
Proof.
  simpl. split; [split; reflexivity |]. split; [reflexivity |].
  intros [Himp _].
  assert (Hb : Blocked after_three "s1") by (vm_compute; eauto).
  specialize (Himp Hb). vm_compute in Himp. lia.
Qed.

(** A request of an identity with a block record is rejected and changes
    nothing, whatever the threshold and the stored data. *)
Lemma blocked_rejected_at (T : nat) (d : Dates) (msg : RecordMsg)
    (data : Storage) (id : string) :
  studentId msg = Some id -> id <> "" -> Blocked data id ->
  recordInfraction_at T d msg data = (already_blocked, [], data).
Proof.
  intros Hk Hne Hb. apply record_rejected.
  - apply truthy_str_Some. eauto.
  - rewrite Hk. simpl. by apply truthy_own.
Qed.

(** A request under a name that every object inherits, such as
    "constructor", is answered as already blocked although no block record
    is stored for it: the read [blockedIds[studentId]] finds the inherited
    member. Such an identity never has a request accepted. *)
Lemma inherited_identity_rejected (T : nat) (d : Dates) (msg : RecordMsg)
    (data : Storage) (id : string) :
  studentId msg = Some id -> inherited_key id = true ->
  recordInfraction_at T d msg data = (already_blocked, [], data).
Proof.
  intros Hk Hin. apply record_rejected.
  - apply truthy_str_Some. exists id. split; [done |]. by intros ->.
  - rewrite Hk. simpl. unfold js_get.
    destruct (blockedIds_of data !! id); [done |]. by rewrite Hin.
Qed.

(** In a ledger the extension can reach, an identity with a block record is
    a non-empty string and not a member of [Object.prototype]: only an
    accepted request writes a block record. For such ledgers
    the side conditions of [blocked_identity_rejected] on the identity hold
    by themselves. *)
Lemma reachable_blocked_key (data : Storage) (id : string) :
  reachable data -> Blocked data id -> id <> "" /\ inherited_key id = false.
Proof.
  intros Hr. revert id. induction Hr as [| e data Hr IH]; intros id [b Hb].
  - done.
  - destruct e as [| d msg | sid | | sid |]; simpl in Hb.
    + apply IH. by exists b.
    + destruct (decide (id = to_key (studentId msg))) as [-> | Hne].
      * unfold recordInfraction in Hb.
        destruct (truthy_str (studentId msg)) eqn:H1;
          [| rewrite record_no_id in Hb by done; apply IH; by exists b].
        destruct (truthy (js_get (blockedIds_of data) (to_key (studentId msg))))
          eqn:H2;
          [rewrite record_rejected in Hb by done; apply IH; by exists b |].
        apply truthy_str_Some in H1 as (k & Hk & Hk').
        apply not_blocked_not_inherited in H2 as [_ H2].
        rewrite Hk in *. by simpl in *.
      * apply IH. exists b.
        by rewrite <- (proj2 (record_other INFRACTION_THRESHOLD d msg data id Hne)).
    + apply IH. by exists b.
    + apply IH. by exists b.
    + unfold blockedIds_of in Hb. simpl in Hb.
      apply lookup_delete_Some in Hb as [_ Hb]. apply IH. by exists b.
    + done.
Qed.

(** C2. In every ledger the extension can reach, a [recordInfraction]
    request of an identity that is Blocked is answered
    [{ ok: false, blocked: true, reason: 'already-blocked' }], shows no
    notification and leaves the stored data, hence the identity's [count],
    [warnings] and [events], as they were. *)
Theorem blocked_identity_rejected (d : Dates) (msg : RecordMsg)
    (data : Storage) (id : string) :
  reachable data -> Blocked data id -> studentId msg = Some id ->
  recordInfraction d msg data = (already_blocked, [], data).
Proof.
  intros Hr Hb Hk.
  destruct (reachable_blocked_key data id Hr Hb) as [Hne _].
  by apply (blocked_rejected_at INFRACTION_THRESHOLD d msg data id).
Qed.

Lemma reachable_after_three : reachable after_three.
Proof.
  change after_three with
    (handle (RecordInfraction at_noon (no_face_of "s1"))
       (handle (RecordInfraction at_noon (no_face_of "s1"))
          (handle (RecordInfraction at_noon (no_face_of "s1")) empty_storage))).
  repeat apply reachable_handle. apply reachable_empty.
Defined.

Lemma blocked_identity_rejected_witness :
  recordInfraction at_noon (no_face_of "s1") after_three
  = (already_blocked, [], after_three).
Proof.
  apply (blocked_identity_rejected at_noon (no_face_of "s1") after_three "s1").
  - exact reachable_after_three.
  - vm_compute. eauto.
  - reflexivity.
Defined.

Lemma unblockId_blockedIds sid data :
  blockedIds_of (unblockId sid data).2 = delete (to_key sid) (blockedIds_of data).
Proof. reflexivity. Qed.

Lemma unblockId_infractions sid data :
  infractions_of (unblockId sid data).2 =
  match infractions_of data !! to_key sid with
  | Some r =>
      <[to_key sid := {| count := 0; events := events r; warnings := 0 |}]>
        (infractions_of data)
  | None => infractions_of data
  end.
Proof. reflexivity. Qed.

(** C3, as amended. [unblockId] reports success, deletes the identity's
    block record if there is one, and sets the [count] and [warnings] of
    the identity's record to 0: the identity is Active afterwards with
    both counters at 0. On an identity that is already Active the block
    records stay as they were, and the call changes nothing in the ledger
    when the identity's counters were 0 already. *)
Theorem unblockId_resets (sid : option string) (data : Storage) :
  let id := to_key sid in
  let out := unblockId sid data in
  out.1.1 = true /\
  blockedIds_of out.2 = delete id (blockedIds_of data) /\
  Active out.2 id /\ count_at out.2 id = 0 /\ warnings_at out.2 id = 0 /\
  (Active data id -> blockedIds_of out.2 = blockedIds_of data) /\
  (Active data id -> count_at data id = 0 -> warnings_at data id = 0 ->
   infractions_of out.2 = infractions_of data).
Proof.
  cbv zeta. unfold Active, count_at, warnings_at.
  rewrite unblockId_blockedIds, unblockId_infractions.
  split; [done |]. split; [done |]. split; [apply lookup_delete_eq |].
  destruct (infractions_of data !! to_key sid) as [r |] eqn:Hr.
  - rewrite lookup_insert_eq. simpl. split; [done |]. split; [done |].
    split; [apply delete_id |].
    intros _ Hc Hw. apply insert_id. rewrite Hr. f_equal.
    destruct r; simpl in *; by subst.
  - rewrite Hr. simpl. split; [done |]. split; [done |].
    split; [apply delete_id | done].
Qed.

Lemma unblockId_resets_witness :
  let out := unblockId (Some "s1") empty_storage in
  out.1.1 = true /\
  blockedIds_of out.2 = delete "s1" (blockedIds_of empty_storage) /\
  Active out.2 "s1" /\ count_at out.2 "s1" = 0 /\ warnings_at out.2 "s1" = 0 /\
  (Active empty_storage "s1" -> blockedIds_of out.2 = blockedIds_of empty_storage) /\
  (Active empty_storage "s1" -> count_at empty_storage "s1" = 0 ->
   warnings_at empty_storage "s1" = 0 ->
   infractions_of out.2 = infractions_of empty_storage).
Proof.
  exact (unblockId_resets (Some "s1") empty_storage).
Defined.

(** C3 as stated fails on an Active identity that has a warning:
    [unblockId] is not a no-op there, it takes the warning away. *)
Lemma unblockId_active_not_noop :
  let out := unblockId (Some "s1") one_warning in
  Active one_warning "s1" /\
  warnings_at one_warning "s1" = 1 /\ warnings_at out.2 "s1" = 0 /\
  infractions_of out.2 <> infractions_of one_warning.
Proof.
  simpl. split; [reflexivity |]. split; [reflexivity |]. split; [reflexivity |].
  intros H. apply (f_equal (fun m => warnings <$> m !! "s1")) in H.
  vm_compute in H. discriminate.
Qed.

(** C4, as amended. When an accepted request takes the identity's
    [warnings] above [T], the handler stores one block record more, that of
    the identity, which had none: its [reason] is
    "Exceeded infraction threshold", its [totalInfractions] the identity's
    [count] and its [lastEvents] the last five of the identity's events,
    the new one included; the reply has [blocked] set and carries that
    reason. *)
Theorem block_transition (T : nat) (d : Dates) (msg : RecordMsg)
    (data : Storage) :
  let id := to_key (studentId msg) in
  let out := recordInfraction_at T d msg data in
  ok out.1.1 = true -> T < warnings_at out.2 id ->
  Active data id /\
  blockedIds_of out.2 =
    <[id := {| blockedAt := blockTime d;
               reason := "Exceeded infraction threshold";
               totalInfractions := count_at out.2 id;
               lastEvents := slice_last 5 (events_at out.2 id) |}]>
      (blockedIds_of data) /\
  size (blockedIds_of out.2) = S (size (blockedIds_of data)) /\
  r_blocked out.1.1 = Some true /\
  r_blockReason out.1.1 = Some "Exceeded infraction threshold".
Proof.
  cbv zeta. intros Hok Hlt.
  apply accepted_iff in Hok as [H1 H2].
  destruct (record_accepted T d msg data H1 H2) as (_ & _ & _ & Hi & Hb & Hr).
  apply not_blocked_not_inherited in H2 as [Hnone _].
  assert (Hw : (T <? warnings (next_record d msg data))%nat = true).
  { apply Nat.ltb_lt. unfold warnings_at in Hlt.
    by rewrite Hi, lookup_insert_eq in Hlt. }
  rewrite Hw in Hb, Hr. injection Hr as Hr1 Hr2.
  unfold count_at, events_at. rewrite Hi, lookup_insert_eq, Hb, Hr1, Hr2.
  split; [done |]. split; [done |]. split; [| done].
  by apply map_size_insert_None.
Qed.

Lemma block_transition_witness :
  let data := (run_at INFRACTION_THRESHOLD
                 [(at_noon, no_face_of "s1"); (at_noon, no_face_of "s1")]
                 empty_storage).2 in
  let out := recordInfraction_at INFRACTION_THRESHOLD at_noon (no_face_of "s1") data in
  Active data "s1" /\
  blockedIds_of out.2 =
    <["s1" := {| blockedAt := blockTime at_noon;
                 reason := "Exceeded infraction threshold";
                 totalInfractions := count_at out.2 "s1";
                 lastEvents := slice_last 5 (events_at out.2 "s1") |}]>
      (blockedIds_of data) /\
  size (blockedIds_of out.2) = S (size (blockedIds_of data)) /\
  r_blocked out.1.1 = Some true /\
  r_blockReason out.1.1 = Some "Exceeded infraction threshold".
Proof.
  apply (block_transition INFRACTION_THRESHOLD at_noon (no_face_of "s1")).
  - reflexivity.
  - vm_compute. lia.
Defined.

(** C4 as stated fails on the wording of the reason: the block record and
    the reply of a block transition carry "Exceeded infraction threshold",
    with a capital, not "exceeded infraction threshold". *)
Lemma block_reason_capitalised :
  let data := (run_at INFRACTION_THRESHOLD
                 [(at_noon, no_face_of "s1"); (at_noon, no_face_of "s1")]
                 empty_storage).2 in
  let out := recordInfraction_at INFRACTION_THRESHOLD at_noon (no_face_of "s1") data in
  ok out.1.1 = true /\
  INFRACTION_THRESHOLD < warnings_at out.2 "s1" /\
  reason <$> blockedIds_of out.2 !! "s1" <> Some "exceeded infraction threshold" /\
  r_blockReason out.1.1 <> Some "exceeded infraction threshold".
Proof.
  simpl. split; [reflexivity |]. split; [vm_compute; lia |].
  split; vm_compute; discriminate.
Qed.

(** C10. [unblockId] deletes the identity's block record and sets its
    [count] and [warnings] to 0, but leaves the list of its recorded events
    as it is, and leaves the record and the block record of every other
    identity as they are. *)
Theorem unblockId_keeps_events (sid : option string) (data : Storage) :
  let id := to_key sid in
  let out := unblockId sid data in
  events_at out.2 id = events_at data id /\
  blockedIds_of out.2 !! id = None /\
  count_at out.2 id = 0 /\ warnings_at out.2 id = 0 /\
  (forall j : string, j <> id ->
     infractions_of out.2 !! j = infractions_of data !! j /\
     blockedIds_of out.2 !! j = blockedIds_of data !! j).
Proof.
  cbv zeta. unfold events_at, count_at, warnings_at.
  rewrite unblockId_blockedIds, unblockId_infractions.
  assert (Hother : forall j : string, j <> to_key sid ->
    match infractions_of data !! to_key sid with
    | Some r =>
        <[to_key sid := {| count := 0; events := events r; warnings := 0 |}]>
          (infractions_of data)
    | None => infractions_of data
    end !! j = infractions_of data !! j /\
    delete (to_key sid) (blockedIds_of data) !! j = blockedIds_of data !! j).
  { intros j Hj. split.
    - destruct (infractions_of data !! to_key sid); [| done].
      by rewrite lookup_insert_ne.
    - by rewrite lookup_delete_ne. }
  destruct (infractions_of data !! to_key sid) as [r |] eqn:Hr.
  - rewrite lookup_insert_eq, lookup_delete_eq.
    do 4 (split; [done |]). exact Hother.
  - rewrite Hr, lookup_delete_eq.
    do 4 (split; [done |]). exact Hother.
Qed.

Lemma unblockId_keeps_events_witness :
  let out := unblockId (Some "s1") after_three in
  events_at out.2 "s1" = events_at after_three "s1" /\
  length (events_at out.2 "s1") = 3 /\
  infractions_of out.2 !! "s2" = infractions_of after_three !! "s2" /\
  blockedIds_of out.2 !! "s2" = blockedIds_of after_three !! "s2".
Proof.
  destruct (unblockId_keeps_events (Some "s1") after_three)
    as (He & _ & _ & _ & Ho).
  split; [exact He |]. split; [reflexivity |].
  apply (Ho "s2"). discriminate.
Defined.

(** ** Further properties of the handlers *)

Lemma record_accepted_notifications T d msg data :
  truthy_str (studentId msg) = true ->
  truthy (js_get (blockedIds_of data) (to_key (studentId msg))) = false ->
  priority <$> (recordInfraction_at T d msg data).1.2 =
  if (T <? warnings (next_record d msg data))%nat then [1; 2] else [1].
Proof.
  intros H1 H2. unfold recordInfraction_at, next_record.
  rewrite H1, H2. cbv beta iota zeta delta [negb].
  destruct (_ <? _)%nat; reflexivity.
Qed.

(** A [recordInfraction] request that is not accepted changes nothing: the
    stored data is returned as it was, no notification is shown, and the
    reply is the no-id reply for a missing or empty student id and the
    already-blocked reply otherwise. *)
Theorem rejected_request_changes_nothing (T : nat) (d : Dates)
    (msg : RecordMsg) (data : Storage) :
  let out := recordInfraction_at T d msg data in
  ok out.1.1 = false ->
  out.2 = data /\ out.1.2 = [] /\
  out.1.1 = (if truthy_str (studentId msg) then already_blocked else no_id).
Proof.
  cbv zeta. intros Hok.
  destruct (truthy_str (studentId msg)) eqn:H1;
    [| by rewrite record_no_id].
  destruct (truthy (js_get (blockedIds_of data) (to_key (studentId msg)))) eqn:H2;
    [by rewrite record_rejected |].
  destruct (record_accepted T d msg data H1 H2) as (Hok' & _). congruence.
Qed.

Lemma rejected_request_changes_nothing_witness :
  let out := recordInfraction at_noon (no_face_of "") one_warning in
  out.2 = one_warning /\ out.1.2 = [] /\ out.1.1 = no_id.
Proof.
  apply (rejected_request_changes_nothing INFRACTION_THRESHOLD at_noon
           (no_face_of "") one_warning).
  reflexivity.
Defined.

(** An accepted [recordInfraction] request adds exactly one to the
    identity's [count] and to its [warnings] and appends exactly one event,
    the new one, to its history; the reply carries the new counters; the
    identity is Blocked afterwards exactly when the new [warnings] exceed
    the threshold, which is when the reply has [blocked] set and a second,
    high-priority notification is shown. *)
Theorem accepted_request_records_one (T : nat) (d : Dates) (msg : RecordMsg)
    (data : Storage) :
  let id := to_key (studentId msg) in
  let out := recordInfraction_at T d msg data in
  ok out.1.1 = true ->
  count_at out.2 id = count_at data id + 1 /\
  warnings_at out.2 id = warnings_at data id + 1 /\
  events_at out.2 id = events_at data id ++ [new_event d msg] /\
  r_infractions out.1.1 = Some (count_at out.2 id) /\
  r_warnings out.1.1 = Some (warnings_at out.2 id) /\
  (Blocked out.2 id <-> T < warnings_at out.2 id) /\
  (r_blocked out.1.1 = Some true <-> T < warnings_at out.2 id) /\
  priority <$> out.1.2 =
    (if (T <? warnings_at out.2 id)%nat then [1; 2] else [1]).
Proof.
  cbv zeta. intros Hok. apply accepted_iff in Hok as [H1 H2].
  destruct (record_accepted T d msg data H1 H2) as (_ & Hc & Hw & Hi & Hb & Hr).
  pose proof (record_accepted_notifications T d msg data H1 H2) as Hn.
  apply not_blocked_not_inherited in H2 as [Hnone _].
  unfold count_at, warnings_at, events_at, Blocked.
  rewrite Hi, lookup_insert_eq, Hb, Hc, Hw, Hn. cbn [from_option].
  assert (Hr0 : forall f : IdentityRecord -> nat,
            f new_record = 0 ->
            from_option f 0 (infractions_of data !! to_key (studentId msg))
            = f (default new_record (infractions_of data !! to_key (studentId msg)))).
  { intros f Hf. by destruct (infractions_of data !! _). }
  rewrite (Hr0 count eq_refl), (Hr0 warnings eq_refl).
  split; [reflexivity |]. split; [reflexivity |].
  split; [unfold next_record;
          destruct (infractions_of data !! to_key (studentId msg)); reflexivity |].
  split; [reflexivity |]. split; [reflexivity |].
  destruct (T <? warnings (next_record d msg data))%nat eqn:E.
  - apply Nat.ltb_lt in E. rewrite lookup_insert_eq.
    injection Hr as Hr1 _. rewrite Hr1.
    split; [split; [done | eauto] |]. split; [done | reflexivity].
  - apply Nat.ltb_ge in E. rewrite Hnone.
    injection Hr as Hr1 _. rewrite Hr1.
    split; [split; [intros [? ?]; done | lia] |].
    split; [split; [done | lia] | reflexivity].
Qed.

Lemma accepted_request_records_one_witness :
  let out := recordInfraction at_noon (no_face_of "s1") one_warning in
  count_at out.2 "s1" = count_at one_warning "s1" + 1 /\
  warnings_at out.2 "s1" = warnings_at one_warning "s1" + 1 /\
  events_at out.2 "s1" =
    events_at one_warning "s1" ++ [new_event at_noon (no_face_of "s1")].
Proof.
  destruct (accepted_request_records_one INFRACTION_THRESHOLD at_noon
              (no_face_of "s1") one_warning eq_refl)
    as (Hc & Hw & He & _).
  split; [exact Hc |]. split; [exact Hw | exact He].
Defined.

(** A [recordInfraction] request, whatever its outcome, leaves the record
    and the block record of every identity other than its own as they
    were. *)
Theorem request_leaves_others (T : nat) (d : Dates) (msg : RecordMsg)
    (data : Storage) (j : string) :
  j <> to_key (studentId msg) ->
  let out := recordInfraction_at T d msg data in
  infractions_of out.2 !! j = infractions_of data !! j /\
  blockedIds_of out.2 !! j = blockedIds_of data !! j.
Proof. apply record_other. Qed.

Lemma request_leaves_others_witness :
  let out := recordInfraction at_noon (no_face_of "s2") after_three in
  infractions_of out.2 !! "s1" = infractions_of after_three !! "s1" /\
  blockedIds_of out.2 !! "s1" = blockedIds_of after_three !! "s1".
Proof.
  apply (request_leaves_others INFRACTION_THRESHOLD at_noon (no_face_of "s2")
           after_three "s1").
  discriminate.
Defined.

(** ** The invariant of the ledger *)

Lemma well_kept_views (data data' : Storage) :
  infractions_of data' = infractions_of data ->
  blockedIds_of data' = blockedIds_of data ->
  well_kept data -> well_kept data'.
Proof.
  unfold well_kept, Active, Blocked. intros -> ->. done.
Qed.

Lemma well_kept_record (d : Dates) (msg : RecordMsg) (data : Storage) :
  well_kept data -> well_kept (recordInfraction d msg data).2.
Proof.
  intros [IH1 IH2]. unfold recordInfraction.
  destruct (truthy_str (studentId msg)) eqn:H1;
    [| by rewrite record_no_id].
  destruct (truthy (js_get (blockedIds_of data) (to_key (studentId msg)))) eqn:H2;
    [by rewrite record_rejected |].
  destruct (record_accepted INFRACTION_THRESHOLD d msg data H1 H2)
    as (_ & _ & _ & Hi & Hb & _).
  apply truthy_str_Some in H1 as (k & Hk & Hne).
  apply not_blocked_not_inherited in H2 as [Hnone Hinh].
  assert (Hr1 : count (next_record d msg data) = warnings (next_record d msg data) /\
                count (next_record d msg data)
                  <= length (events (next_record d msg data)) /\
                warnings (next_record d msg data) <= INFRACTION_THRESHOLD + 1).
  { unfold next_record.
    destruct (infractions_of data !! to_key (studentId msg)) as [r0 |] eqn:E.
    - destruct (IH1 _ _ E) as (_ & _ & Hcw & Hlen & Hact & _).
      specialize (Hact Hnone). simpl. rewrite length_app. simpl.
      unfold INFRACTION_THRESHOLD in Hact. lia.
    - simpl. lia. }
  destruct Hr1 as (Hcw & Hlen & Hmax).
  set (r1 := next_record d msg data) in *.
  set (sid := to_key (studentId msg)) in *.
  assert (Hsid : sid = k) by (unfold sid; by rewrite Hk).
  unfold well_kept, Active, Blocked. rewrite Hi, Hb. split.
  - intros id r Hl. destruct (decide (id = sid)) as [-> | Hother].
    + rewrite lookup_insert_eq in Hl. injection Hl as <-.
      split; [congruence |]. split; [done |]. split; [done |]. split; [done |].
      destruct (INFRACTION_THRESHOLD <? warnings r1)%nat eqn:E.
      * apply Nat.ltb_lt in E. rewrite lookup_insert_eq.
        split; [done | intros _; lia].
      * apply Nat.ltb_ge in E. rewrite Hnone.
        split; [done | intros [? ?]; done].
    + rewrite lookup_insert_ne in Hl by done.
      destruct (IH1 _ _ Hl) as (? & ? & ? & ? & Hact & Hblk).
      do 4 (split; [done |]).
      destruct (INFRACTION_THRESHOLD <? warnings r1)%nat;
        [rewrite lookup_insert_ne by done |]; by split.
  - intros id b Hl.
    destruct (INFRACTION_THRESHOLD <? warnings r1)%nat eqn:E.
    + destruct (decide (id = sid)) as [-> | Hother].
      * rewrite lookup_insert_eq in Hl. injection Hl as <-.
        exists r1. by rewrite lookup_insert_eq.
      * rewrite lookup_insert_ne in Hl by done.
        destruct (IH2 _ _ Hl) as (r & ? & ?). exists r.
        by rewrite lookup_insert_ne.
    + assert (Hother : id <> sid) by congruence.
      destruct (IH2 _ _ Hl) as (r & ? & ?). exists r.
      by rewrite lookup_insert_ne.
Qed.

Lemma well_kept_unblock (sid : option string) (data : Storage) :
  well_kept data -> well_kept (unblockId sid data).2.
Proof.
  intros [IH1 IH2]. unfold well_kept, Active, Blocked.
  rewrite unblockId_blockedIds, unblockId_infractions. split.
  - intros id r Hl. destruct (decide (id = to_key sid)) as [-> | Hother].
    + destruct (infractions_of data !! to_key sid) as [r0 |] eqn:E;
        [| congruence].
      rewrite lookup_insert_eq in Hl. injection Hl as <-.
      destruct (IH1 _ _ E) as (? & ? & _). simpl.
      rewrite lookup_delete_eq.
      do 3 (split; [done |]). split; [lia |].
      split; [intros _; lia | intros [? ?]; done].
    + assert (Hl' : infractions_of data !! id = Some r).
      { destruct (infractions_of data !! to_key sid); [| done].
        by rewrite lookup_insert_ne in Hl. }
      destruct (IH1 _ _ Hl') as (? & ? & ? & ? & Hact & Hblk).
      rewrite lookup_delete_ne by done. by do 5 (split; [done |]).
  - intros id b Hl. apply lookup_delete_Some in Hl as [Hother Hl].
    destruct (IH2 _ _ Hl) as (r & Hr & ?). exists r. split; [| done].
    destruct (infractions_of data !! to_key sid); [| done].
    by rewrite lookup_insert_ne.
Qed.

Lemma well_kept_empty (data : Storage) :
  infractions_of data = ∅ -> blockedIds_of data = ∅ -> well_kept data.
Proof.
  intros Hi Hb. unfold well_kept. rewrite Hi, Hb.
  split; intros id x Hl; by rewrite lookup_empty in Hl.
Qed.

Lemma well_kept_handle (e : Event) (data : Storage) :
  well_kept data -> well_kept (handle e data).
Proof.
  intros IH. destruct e as [| d msg | sid | | sid |]; simpl.
  - by apply (well_kept_views data).
  - by apply well_kept_record.
  - done.
  - done.
  - by apply well_kept_unblock.
  - by apply well_kept_empty.
Qed.

(** In every ledger the extension can reach, each identity with a record
    has a non-empty name that no object inherits, its [count] equals its
    [warnings] and does not exceed the number of its events, it has at
    most [INFRACTION_THRESHOLD] warnings while Active and exactly one more
    while Blocked; and each block record belongs to an identity with a
    record, carries the reason "Exceeded infraction threshold", that
    record's [count] and its last five events. *)
Theorem reachable_well_kept (data : Storage) :
  reachable data -> well_kept data.
Proof.
  induction 1 as [| e data Hr IH].
  - by apply well_kept_empty.
  - by apply well_kept_handle.
Qed.

Lemma reachable_well_kept_witness : well_kept after_three.
Proof. exact (reachable_well_kept after_three reachable_after_three). Defined.

(** ** The handlers together *)

(** For every request that names an identity, the [isBlocked] handler and
    the [recordInfraction] handler agree: [isBlocked] answers
    [blocked: true] exactly when the request is refused. This holds once
    the [blockedIds] key has been written, and for every name that no
    object inherits; with a block record stored, [isBlocked] returns that
    record as [info]. *)
Theorem isBlocked_agrees_with_rejection (T : nat) (d : Dates)
    (msg : RecordMsg) (data : Storage) (id : string) :
  studentId msg = Some id -> id <> "" ->
  st_blockedIds data <> None \/ inherited_key id = false ->
  (isBlocked (Some id) data).1 = negb (ok (recordInfraction_at T d msg data).1.1) /\
  (forall b, blockedIds_of data !! id = Some b ->
     isBlocked (Some id) data = (true, Own b)).
Proof.
  intros Hk Hne Hor.
  assert (H1 : truthy_str (studentId msg) = true)
    by (apply truthy_str_Some; eauto).
  assert (Hkey : to_key (studentId msg) = id) by (by rewrite Hk).
  assert (Hok : ok (recordInfraction_at T d msg data).1.1
                = negb (truthy (js_get (blockedIds_of data) id))).
  { destruct (truthy (js_get (blockedIds_of data) id)) eqn:H2.
    - rewrite record_rejected; [done | done | by rewrite Hkey].
    - apply accepted_iff. by rewrite Hkey. }
  rewrite Hok, negb_involutive. unfold isBlocked, blockedIds_of.
  destruct (st_blockedIds data) as [m |] eqn:E; simpl.
  - split; [done |]. intros b Hb. unfold js_get. by rewrite Hb.
  - split; [| intros b Hb; by rewrite lookup_empty in Hb].
    destruct Hor as [? | Hinh]; [done |].
    unfold js_get. by rewrite lookup_empty, Hinh.
Qed.

Lemma isBlocked_agrees_with_rejection_witness :
  (isBlocked (Some "s1") after_three).1
  = negb (ok (recordInfraction at_noon (no_face_of "s1") after_three).1.1).
Proof.
  refine (proj1 (isBlocked_agrees_with_rejection INFRACTION_THRESHOLD at_noon
                   (no_face_of "s1") after_three "s1" eq_refl _ _)).
  - discriminate.
  - right. reflexivity.
Defined.

(** Before the [blockedIds] key is first written, the two handlers differ
    on the names every object inherits: [isBlocked] answers
    [blocked: false], the request is refused as already blocked. *)
Lemma isBlocked_differs_on_inherited :
  isBlocked (Some "constructor") empty_storage = (false, Undefined) /\
  (recordInfraction at_noon (no_face_of "constructor") empty_storage).1.1
  = already_blocked.
Proof. split; reflexivity. Qed.

(** [unblockId] is idempotent: a second call for the same identity returns
    what the first returned and leaves the stored data as the first left
    it. *)
Theorem unblockId_idempotent (sid : option string) (data : Storage) :
  unblockId sid (unblockId sid data).2 = unblockId sid data.
Proof.
  unfold unblockId at 1. rewrite unblockId_blockedIds, unblockId_infractions.
  unfold unblockId. f_equal. f_equal.
  - destruct (infractions_of data !! to_key sid) as [r |] eqn:E.
    + rewrite lookup_insert_eq. simpl. by rewrite insert_insert_eq.
    + by rewrite E.
  - by rewrite delete_delete_eq.
Qed.

(** The conclusion of [fresh_identity_blocked_iff] holds from every ledger
    in which the identity is Active with no warnings. *)
Lemma blocked_iff_from_zero (T : nat) (id : string)
    (reqs : list (Dates * RecordMsg)) (data : Storage) :
  Active data id -> warnings_at data id = 0 ->
  let out := run_at T reqs data in
  let N := accepted id reqs out.1 in
  N <= T + 1 /\
  (Blocked out.2 id <-> T < N) /\
  (~ T < N -> Active out.2 id /\ warnings_at out.2 id = N).
Proof.
  intros Ha0 Hw0 out N.
  assert (H0 : tally T id data 0).
  { split; [intros _; split; [done | lia] |].
    intros Hb. by apply Active_not_Blocked in Ha0. }
  pose proof (tally_run T id reqs data 0 H0) as [HA HB].
  simpl in HA, HB. fold out in HA, HB. fold N in HA, HB.
  destruct (Active_or_Blocked out.2 id) as [Ha | Hb].
  - destruct (HA Ha) as [Hw Hle]. split; [lia |]. split.
    + split; [| lia]. intros Hb. by apply Active_not_Blocked in Ha.
    + intros _. by split.
  - specialize (HB Hb). split; [lia |]. split.
    + split; [lia | done].
    + lia.
Qed.

(** [unblockId] gives the identity a new start, whatever its record was:
    of the requests handled after it, the first [T] accepted ones of the
    identity are warnings, the next one blocks it, and no further one is
    accepted. *)
Theorem unblocked_identity_starts_over (T : nat) (sid : option string)
    (reqs : list (Dates * RecordMsg)) (data : Storage) :
  let id := to_key sid in
  let out := run_at T reqs (unblockId sid data).2 in
  let N := accepted id reqs out.1 in
  N <= T + 1 /\
  (Blocked out.2 id <-> T < N) /\
  (~ T < N -> Active out.2 id /\ warnings_at out.2 id = N).
Proof.
  cbv zeta. apply blocked_iff_from_zero.
  - unfold Active. rewrite unblockId_blockedIds. apply lookup_delete_eq.
  - unfold warnings_at. rewrite unblockId_infractions.
    destruct (infractions_of data !! to_key sid) as [r |] eqn:E.
    + by rewrite lookup_insert_eq.
    + by rewrite E.
Qed.

Lemma unblocked_identity_starts_over_witness :
  let out := run_at INFRACTION_THRESHOLD three_requests
               (unblockId (Some "s1") after_three).2 in
  Blocked out.2 "s1" /\ accepted "s1" three_requests out.1 = 3.
Proof.
  destruct (unblocked_identity_starts_over INFRACTION_THRESHOLD (Some "s1")
              three_requests after_three) as (_ & Hb & _).
  split; [| reflexivity]. apply Hb. vm_compute. lia.
Defined.

(** After [clearAllData] every identity starts anew in the same way, and
    [getStatus] returns two empty maps. *)
Theorem cleared_ledger_starts_over (T : nat) (id : string)
    (reqs : list (Dates * RecordMsg)) (data : Storage) :
  let out := run_at T reqs (clearAllData data).2 in
  let N := accepted id reqs out.1 in
  getStatus (clearAllData data).2 = (∅, ∅) /\
  N <= T + 1 /\
  (Blocked out.2 id <-> T < N) /\
  (~ T < N -> Active out.2 id /\ warnings_at out.2 id = N).
Proof.
  cbv zeta. split; [reflexivity |]. by apply blocked_iff_from_zero.
Qed.

Lemma cleared_ledger_starts_over_witness :
  let out := run_at INFRACTION_THRESHOLD three_requests
               (clearAllData after_three).2 in
  Blocked out.2 "s1" /\ accepted "s1" three_requests out.1 = 3.
Proof.
  destruct (cleared_ledger_starts_over INFRACTION_THRESHOLD "s1"
              three_requests after_three) as (_ & _ & Hb & _).
  split; [| reflexivity]. apply Hb. vm_compute. lia.
Defined.

(** ** The snapshot of a block *)

Lemma slice_last_snoc {A} (n : nat) (l : list A) (x : A) :
  0 < n -> slice_last n (l ++ [x]) = slice_last (n - 1) l ++ [x].
Proof.
  intros Hn. unfold slice_last. rewrite length_app. simpl.
  rewrite drop_app_le by lia. f_equal. f_equal. lia.
Qed.

(** The block record written by a block transition holds at most five
    events, the last events of the identity's history in their order, and
    the last of them is the event of the request that caused the block. *)
Theorem block_snapshot (T : nat) (d : Dates) (msg : RecordMsg)
    (data : Storage) :
  let id := to_key (studentId msg) in
  let out := recordInfraction_at T d msg data in
  ok out.1.1 = true -> T < warnings_at out.2 id ->
  exists b : BlockRecord,
    blockedIds_of out.2 !! id = Some b /\
    last (lastEvents b) = Some (new_event d msg) /\
    length (lastEvents b) = min 5 (length (events_at out.2 id)) /\
    lastEvents b `suffix_of` events_at out.2 id /\
    blockedAt b = blockTime d.
Proof.
  cbv zeta. intros Hok Hlt.
  apply accepted_iff in Hok as [H1 H2].
  destruct (record_accepted T d msg data H1 H2) as (_ & _ & _ & Hi & Hb & _).
  assert (Hw : (T <? warnings (next_record d msg data))%nat = true).
  { apply Nat.ltb_lt. unfold warnings_at in Hlt.
    by rewrite Hi, lookup_insert_eq in Hlt. }
  rewrite Hw in Hb. unfold events_at. rewrite Hi, Hb, !lookup_insert_eq.
  exists (block_record d (next_record d msg data)).
  split; [done |]. cbn [from_option block_record lastEvents blockedAt].
  split; [| split; [apply slice_last_length | split; [apply suffix_drop | done]]].
  unfold next_record, record_event. cbn [events].
  rewrite slice_last_snoc by lia. apply last_snoc.
Qed.

Lemma block_snapshot_witness :
  let data := (run_at INFRACTION_THRESHOLD
                 [(at_noon, no_face_of "s1"); (at_noon, no_face_of "s1")]
                 empty_storage).2 in
  let out := recordInfraction at_noon (no_face_of "s1") data in
  exists b : BlockRecord,
    blockedIds_of out.2 !! "s1" = Some b /\
    last (lastEvents b) = Some (new_event at_noon (no_face_of "s1")) /\
    length (lastEvents b) = min 5 (length (events_at out.2 "s1")) /\
    lastEvents b `suffix_of` events_at out.2 "s1" /\
    blockedAt b = blockTime at_noon.
Proof.
  apply (block_snapshot INFRACTION_THRESHOLD at_noon (no_face_of "s1")).
  - reflexivity.
  - vm_compute. lia.
Defined.

(** ** Severities *)

Lemma INFRACTION_TYPES_severity (k : string) (i : InfractionInfo) :
  INFRACTION_TYPES !! k = Some i -> 2 <= severity i <= 5.
Proof.
  intros Hk. apply elem_of_list_to_map_2 in Hk.
  repeat (apply elem_of_cons in Hk as [Hk | Hk];
          [injection Hk as _ ->; simpl; lia |]).
  by apply elem_of_nil in Hk.
Qed.

(** The severity recorded with an event lies between 1 and 5. It is 1, with
    the message "Unknown infraction", exactly for a type name that is
    neither in the table nor a name every object inherits; a name of the
    table gets the table's severity, from 2 to 5, and message; an
    inherited name gets neither a severity nor a message. *)
Theorem recorded_severity (infractionType : option string) :
  let k := to_key infractionType in
  let info := infractionInfo infractionType in
  (forall s : nat, info.1 = Some s -> 1 <= s <= 5) /\
  (forall i : InfractionInfo,
     INFRACTION_TYPES !! k = Some i ->
     info = (Some (severity i), Some (message i)) /\ 2 <= severity i) /\
  (INFRACTION_TYPES !! k = None -> inherited_key k = false ->
   info = (Some 1, Some "Unknown infraction")) /\
  (INFRACTION_TYPES !! k = None -> inherited_key k = true ->
   info = (None, None)).
Proof.
  cbv zeta. unfold infractionInfo, js_get.
  destruct (INFRACTION_TYPES !! to_key infractionType) as [i |] eqn:E.
  - pose proof (INFRACTION_TYPES_severity _ _ E) as Hs.
    split; [intros s [= <-]; lia |].
    split; [intros i' [= <-]; split; [done | lia] |].
    split; intros; done.
  - destruct (inherited_key (to_key infractionType)).
    + split; [intros s Hs; done |]. split; [intros; done |].
      split; intros; done.
    + split; [intros s [= <-]; lia |]. split; [intros; done |].
      split; intros; done.
Qed.

Lemma recorded_severity_witness :
  infractionInfo (Some "NO_FACE") = (Some 4, Some "Face not detected in camera") /\
  infractionInfo (Some "WHISTLING") = (Some 1, Some "Unknown infraction") /\
  infractionInfo (Some "valueOf") = (None, None).
Proof.
  split; [| split].
  - refine (proj1 (proj1 (proj2 (recorded_severity (Some "NO_FACE")))
              {| severity := 4; message := "Face not detected in camera" |} _)).
    reflexivity.
  - apply (proj1 (proj2 (proj2 (recorded_severity (Some "WHISTLING")))));
      reflexivity.
  - apply (proj2 (proj2 (proj2 (recorded_severity (Some "valueOf")))));
      reflexivity.
Defined.

End BackgroundFacts.

(** * Properties of the content script *)

Module ContentFacts.
Import JS Content.

Local Open Scope Z_scope.

Lemma slice_last_length' {A} (n : nat) (l : list A) :
  length (slice_last n l) = min n (length l).
Proof. unfold slice_last. rewrite length_drop. lia. Qed.

(** ** Notices and requests *)

Lemma spaced_nil gap : spaced gap [].
Proof. intros i j a b _ Hi. by rewrite lookup_nil in Hi. Qed.

Lemma spaced_snoc gap (ns : list Notice) (n : Notice) :
  spaced gap ns ->
  (forall a, a ∈ ns -> gap <= shown_at n - shown_at a) ->
  spaced gap (ns ++ [n]).
Proof.
  intros Hs Hn i j a b Hij Hi Hj.
  destruct (decide (j < length ns)%nat) as [Hlt | Hge].
  - rewrite lookup_app_l in Hi, Hj by lia. eauto.
  - pose proof (lookup_lt_Some _ _ _ Hj) as Hlen.
    rewrite length_app in Hlen. simpl in Hlen.
    rewrite lookup_app_l in Hi by lia.
    rewrite lookup_app_r in Hj by lia.
    apply list_lookup_singleton_Some in Hj as [_ <-].
    apply Hn. by eapply list_elem_of_lookup_2.
Qed.

Lemma show_inv now msg sev p : overlay_inv p -> overlay_inv (show now msg sev p).
Proof.
  intros [Hs Hl]. unfold show, showWarningOverlay.
  destruct (now - lastWarningTime p <? 1000) eqn:E; simpl.
  - rewrite app_nil_r. by split.
  - apply Z.ltb_ge in E. split; simpl.
    + apply spaced_snoc; [done |]. intros a Ha. specialize (Hl a Ha). simpl. lia.
    + intros a Ha. apply elem_of_app in Ha as [Ha | Ha].
      * specialize (Hl a Ha). lia.
      * apply list_elem_of_singleton in Ha as ->. simpl. lia.
Qed.

Lemma page_step_inv sid href p ev :
  overlay_inv p -> overlay_inv (page_step sid href p ev).
Proof.
  intros Hp. destruct ev as [e | [r |] now | msg sev now]; simpl; try done.
  - case_bool_decide; [done |]. destruct (Background.ok r); [| done].
    by apply show_inv.
  - by apply show_inv.
Qed.

Lemma page_run_inv sid href evs : forall p,
  overlay_inv p -> overlay_inv (page_run sid href evs p).
Proof.
  induction evs as [| ev evs IH]; intros p Hp; [done |].
  apply IH. by apply page_step_inv.
Qed.

Lemma show_sent now msg sev p : sent (show now msg sev p) = sent p.
Proof. unfold show. by destruct (showWarningOverlay _ _ _ _). Qed.

Lemma page_run_sent sid href evs : forall p,
  sent (page_run sid href evs p) =
  sent p ++ omap (recordInfraction sid href) (infractions_in evs).
Proof.
  induction evs as [| ev evs IH]; intros p.
  - simpl. by rewrite app_nil_r.
  - unfold page_run. simpl. fold (page_run sid href evs (page_step sid href p ev)).
    rewrite IH.
    destruct ev as [e | [r |] now | msg sev now]; simpl; try done.
    + rewrite <- app_assoc. f_equal.
      by destruct (recordInfraction sid href e).
    + case_bool_decide; [done |]. destruct (Background.ok r); [| done].
      by rewrite show_sent.
    + by rewrite show_sent.
Qed.

Lemma omap_requests sid href (es : list Emission) :
  truthy_str sid = true ->
  omap (recordInfraction sid href) es = request_of sid href <$> es.
Proof.
  intros Hid.
  assert (He : forall e, recordInfraction sid href e = Some (request_of sid href e)).
  { intros e. unfold recordInfraction. by rewrite Hid. }
  induction es as [| e es IH]; [done |].
  csimpl. rewrite He. simpl. by rewrite IH.
Qed.

(** C5. Whatever happens on the page, in whatever order and at whatever
    clock readings, any two notices displayed by [showWarningOverlay] are
    at least 1000 ms apart; and with a student id set, every infraction
    submits its [recordInfraction] request, whether or not a notice was
    suppressed: the requests submitted are those of the infractions, one
    for one and in order. *)
Theorem warnings_rate_limited (studentId : option string) (href : string)
    (evs : list PageEvent) :
  let p := page_run studentId href evs initial_page in
  spaced 1000 (shown p) /\
  sent p = omap (recordInfraction studentId href) (infractions_in evs) /\
  (truthy_str studentId = true ->
   sent p = request_of studentId href <$> infractions_in evs /\
   length (sent p) = length (infractions_in evs)).
Proof.
  cbv zeta. split; [| split].
  - apply page_run_inv. split; [apply spaced_nil |].
    intros a Ha. by apply elem_of_nil in Ha.
  - by rewrite page_run_sent.
  - intros Hid. rewrite page_run_sent. simpl.
    rewrite (omap_requests _ _ _ Hid). split; [done |]. by rewrite length_fmap.
Qed.

Lemma warnings_rate_limited_witness :
  let p := page_run (Some "s1") "https://exam.example/paper" busy_second
             initial_page in
  spaced 1000 (shown p) /\
  length (shown p) = 1%nat /\
  length (sent p) = 3%nat.
Proof.
  destruct (warnings_rate_limited (Some "s1") "https://exam.example/paper"
              busy_second) as (Hs & _ & Hn).
  split; [exact Hs |]. split; [reflexivity |].
  destruct Hn as [_ Hn]; [reflexivity |]. exact Hn.
Defined.

(** ** Multiple monitors *)

(** On a screen of positive height the ultra-wide test is that of the
    aspect ratio [width / height] against 5/2. *)
Lemma isUltraWide_ratio (W H : Z) :
  0 < H -> (isUltraWide W H = true <-> 5 * H < 2 * W).
Proof.
  intros HH. unfold isUltraWide.
  destruct (H =? 0) eqn:E0; [apply Z.eqb_eq in E0; lia |].
  destruct (0 <? H) eqn:E1; [| apply Z.ltb_ge in E1; lia].
  apply Z.ltb_lt.
Qed.

Lemma outside_test (w : Window) (s : Screen) :
  (currentX w <? -100) || (currentY w <? -100) ||
  (screen_width s + 100 <? currentX w) || (screen_height s + 100 <? currentY w)
  = true <-> outside w s.
Proof.
  unfold outside. rewrite !orb_true_iff, !Z.ltb_lt. tauto.
Qed.

Lemma detect_returns (w : Window) (r : MonitorResult) :
  monitor_body w = Returns r -> detectMultipleMonitors w = (r, []).
Proof. intros H. unfold detectMultipleMonitors. by rewrite H. Qed.

(** C8. On a window whose screen has a positive height the signals are
    tried in order and the first positive one decides: an aspect ratio
    above 2.5 gives the ultra-wide result whatever the other signals say;
    failing that, a position beyond the margin of 100 gives the
    outside-bounds result; failing that, the extended-display flag gives
    its result; failing that, an enumeration of more than one screen gives
    the multiple-displays result; and with none of the four the result is
    [detected = false]. *)
Theorem monitors_first_signal (w : Window) (s : Screen) :
  screen w = Some s -> 0 < screen_height s ->
  let W := screen_width s in
  let H := screen_height s in
  let result := (detectMultipleMonitors w).1 in
  (5 * H < 2 * W ->
   result = {| detected := true; reason := Some ultra_wide;
               screenCount := None |}) /\
  (2 * W <= 5 * H -> outside w s ->
   result = {| detected := true; reason := Some outside_bounds;
               screenCount := None |}) /\
  (2 * W <= 5 * H -> ~ outside w s -> isExtended s = Some true ->
   result = {| detected := true; reason := Some extended_display;
               screenCount := None |}) /\
  (2 * W <= 5 * H -> ~ outside w s -> isExtended s <> Some true ->
   forall n, getScreenDetails w = Some (Returns (Some n)) -> 1 < n ->
   result = {| detected := true; reason := Some (multiple_displays n);
               screenCount := Some n |}) /\
  (2 * W <= 5 * H -> ~ outside w s -> isExtended s <> Some true ->
   (forall n, getScreenDetails w = Some (Returns (Some n)) -> n <= 1) ->
   result = not_detected).
Proof.
  intros Hs HH. cbv zeta.
  pose proof (isUltraWide_ratio (screen_width s) (screen_height s) HH) as Hu.
  pose proof (outside_test w s) as Ho.
  assert (Hwide : 5 * screen_height s < 2 * screen_width s ->
                  isUltraWide (screen_width s) (screen_height s) = true)
    by (intros; by apply Hu).
  assert (Hnarrow : 2 * screen_width s <= 5 * screen_height s ->
                    isUltraWide (screen_width s) (screen_height s) = false).
  { intros Hle. apply not_true_is_false. rewrite Hu. lia. }
  assert (Hin : ~ outside w s ->
    (currentX w <? -100) || (currentY w <? -100) ||
    (screen_width s + 100 <? currentX w) ||
    (screen_height s + 100 <? currentY w) = false).
  { intros Hn. apply not_true_is_false. by rewrite Ho. }
  repeat split.
  - intros Hr. erewrite detect_returns; [done |].
    unfold monitor_body. by rewrite Hs, Hwide.
  - intros Hr Hout. erewrite detect_returns; [done |].
    unfold monitor_body. rewrite Hs, Hnarrow by done.
    apply Ho in Hout. by rewrite Hout.
  - intros Hr Hout Hext. erewrite detect_returns; [done |].
    unfold monitor_body. rewrite Hs, Hnarrow, Hin by done.
    by rewrite bool_decide_eq_true_2.
  - intros Hr Hout Hext n Hn Hlt. erewrite detect_returns; [done |].
    unfold monitor_body. rewrite Hs, Hnarrow, Hin by done.
    rewrite bool_decide_eq_false_2, Hn by done.
    apply Z.ltb_lt in Hlt. by rewrite Hlt.
  - intros Hr Hout Hext Hn. erewrite detect_returns; [done |].
    unfold monitor_body. rewrite Hs, Hnarrow, Hin by done.
    rewrite bool_decide_eq_false_2 by done.
    destruct (getScreenDetails w) as [[[n |] | err] |]; try done.
    specialize (Hn n eq_refl). apply Z.ltb_ge in Hn. by rewrite Hn.
Qed.

(** An aspect ratio of 3.0 is reported as ultra-wide; one of 1.78, with the
    window in bounds, no extended display and one screen enumerated, is
    not reported. *)
Lemma monitors_first_signal_witness :
  (detectMultipleMonitors ultra_wide_window).1 =
    {| detected := true; reason := Some ultra_wide; screenCount := None |} /\
  (detectMultipleMonitors single_monitor_window).1 = not_detected.
Proof.
  split.
  - refine (proj1 (monitors_first_signal ultra_wide_window _ eq_refl _) _).
    + simpl. lia.
    + simpl. lia.
  - refine (proj2 (proj2 (proj2 (proj2
              (monitors_first_signal single_monitor_window _ eq_refl _))))
              _ _ _ _).
    + simpl. lia.
    + simpl. lia.
    + unfold outside, currentX, currentY, or_num. simpl. lia.
    + discriminate.
    + intros n [= <-]. lia.
Defined.

(** A zero height makes the quotient infinite, or NaN for a zero width. *)
Lemma isUltraWide_zero_height (W : Z) : isUltraWide W 0 = (0 <? W).
Proof. reflexivity. Qed.

(** ** Errors in the detectors *)






(** ** Three in a row *)

Lemma streak_snoc (hs : list bool) (h : bool) :
  streak (hs ++ [h]) = if h then S (streak hs) else O.
Proof. unfold streak. by rewrite foldl_snoc. Qed.

(** The counter kept by [streak3] is the streak modulo 3, and it fires
    when a hit brings the streak to a multiple of 3. *)
Lemma streak3_spec (h : bool) (n : nat) :
  streak3 h (n mod 3) =
  (((if h then S n else O) mod 3)%nat, h && (S n mod 3 =? 0)%nat).
Proof.
  unfold streak3. destruct h; [| done]. rewrite andb_true_l.
  pose proof (Nat.mod_upper_bound n 3 ltac:(lia)) as Hlt.
  assert (Hs : (S n mod 3 = (1 + n mod 3) mod 3)%nat).
  { replace (S n) with (1 + n)%nat by lia. by rewrite Nat.Div0.add_mod. }
  rewrite Hs.
  destruct (n mod 3)%nat as [| [| [| k]]]; try reflexivity. lia.
Qed.

(** ** The audio check *)

Lemma audioDetectionRun_snoc (bs : list (list Z)) (b : list Z) : forall c,
  audioDetectionRun (bs ++ [b]) c =
  let '(c1, es) := audioDetectionRun bs c in
  let '(c2, es') := audioDetectionTick b c1 in
  (c2, es ++ es').
Proof.
  induction bs as [| b0 bs IH]; intros c; simpl.
  - destruct (audioDetectionTick b c) as [c2 es']. by rewrite app_nil_r.
  - destruct (audioDetectionTick b0 c) as [c0 es0]. rewrite IH.
    destruct (audioDetectionRun bs c0) as [c1 es1].
    destruct (audioDetectionTick b c1) as [c2 es2]. by rewrite app_assoc.
Qed.

Lemma audio_counter (bs : list (list Z)) :
  (audioDetectionRun bs 0).1 = (streak (above_threshold <$> bs) mod 3)%nat.
Proof.
  induction bs as [| b bs IH] using rev_ind; [done |].
  rewrite audioDetectionRun_snoc, fmap_app.
  change (above_threshold <$> [b]) with [above_threshold b].
  rewrite streak_snoc.
  destruct (audioDetectionRun bs 0) as [c1 es]. cbn [fst] in IH. subst c1.
  unfold audioDetectionTick. rewrite streak3_spec.
  by destruct (above_threshold b).
Qed.

Lemma total_replicate (n : nat) (v : Z) : forall acc,
  foldl Z.add acc (replicate n v) = acc + Z.of_nat n * v.
Proof.
  induction n as [| n IH]; intros acc; simpl; [lia |]. rewrite IH. lia.
Qed.

Lemma mean_flat_buffer (v : Z) : mean_is v (flat_buffer v).
Proof.
  unfold mean_is, total, flat_buffer. rewrite total_replicate.
  unfold bufferLength. simpl. lia.
Qed.

Lemma above_threshold_mean (v : Z) (b : list Z) :
  mean_is v b -> above_threshold b = (30 <? v).
Proof.
  unfold mean_is, above_threshold, bufferLength. intros ->.
  destruct (30 <? v) eqn:E.
  - apply Z.ltb_lt in E. apply Z.ltb_lt. lia.
  - apply Z.ltb_ge in E. apply Z.ltb_ge. lia.
Qed.

Lemma level_mean (v : Z) (b : list Z) : mean_is v b -> level b = v.
Proof.
  unfold mean_is, level, bufferLength. intros ->.
  replace (2 * (v * 128) + 128) with (128 + v * (2 * 128)) by lia.
  rewrite Z.div_add by lia. reflexivity.
Qed.

(** C7. The audio check counts the buffers in a row whose mean magnitude
    exceeds 30: after any sequence of buffers its counter is the length of
    the current streak modulo 3, and the last buffer records one
    AUDIO_DETECTED exactly when it brings the streak to a multiple of 3, a
    buffer at or below the threshold ending the streak. Three buffers of
    mean 31 in a row record exactly one event, with level 31, and leave the
    counter at 0; with a buffer of mean 29 between them nothing is
    recorded. *)
Theorem audio_three_in_a_row :
  (forall (bs : list (list Z)) (b : list Z),
     let n := streak (above_threshold <$> (bs ++ [b])) in
     audioDetectionRun (bs ++ [b]) 0 =
       ((n mod 3)%nat,
        (audioDetectionRun bs 0).2 ++
        if (0 <? n)%nat && (n mod 3 =? 0)%nat then [AUDIO_DETECTED b] else [])) /\
  (forall b1 b2 b3 q : list Z,
     mean_is 31 b1 -> mean_is 31 b2 -> mean_is 31 b3 -> mean_is 29 q ->
     audioDetectionRun [b1; b2; b3] 0 =
       (O, [ {| e_type := "AUDIO_DETECTED"; e_details := "Audio level: 31" |} ]) /\
     audioDetectionRun [b1; q; b2; b3] 0 = (2%nat, []) /\
     audioDetectionRun [b1; b2; q; b3] 0 = (1%nat, [])).
Proof.
  split.
  - intros bs b. cbv zeta.
    pose proof (audio_counter bs) as Hc.
    rewrite audioDetectionRun_snoc, fmap_app.
    change (above_threshold <$> [b]) with [above_threshold b].
    rewrite streak_snoc.
    destruct (audioDetectionRun bs 0) as [c1 es]. cbn [fst] in Hc. subst c1.
    unfold audioDetectionTick. rewrite streak3_spec. cbn [snd].
    destruct (above_threshold b); [| reflexivity].
    assert (Hpos : (0 <? S (streak (above_threshold <$> bs)))%nat = true)
      by (apply Nat.ltb_lt; lia).
    rewrite Hpos, !andb_true_l. done.
  - intros b1 b2 b3 q H1 H2 H3 Hq.
    unfold audioDetectionRun, audioDetectionTick, AUDIO_DETECTED.
    rewrite (above_threshold_mean 31 b1 H1), (above_threshold_mean 31 b2 H2),
      (above_threshold_mean 31 b3 H3), (above_threshold_mean 29 q Hq),
      (level_mean 31 b3 H3).
    done.
Qed.

Lemma audio_three_in_a_row_witness :
  audioDetectionRun [flat_buffer 31; flat_buffer 31; flat_buffer 31] 0 =
    (O, [ {| e_type := "AUDIO_DETECTED"; e_details := "Audio level: 31" |} ]) /\
  audioDetectionRun [flat_buffer 31; flat_buffer 29; flat_buffer 31;
                     flat_buffer 31] 0 = (2%nat, []) /\
  audioDetectionRun [flat_buffer 31; flat_buffer 31; flat_buffer 29;
                     flat_buffer 31] 0 = (1%nat, []).
Proof.
  apply (proj2 audio_three_in_a_row (flat_buffer 31) (flat_buffer 31)
           (flat_buffer 31) (flat_buffer 29));
    apply mean_flat_buffer.
Defined.

(** ** The face check *)

(** *** The loops *)












(** *** The region *)









(** *** Pixels and bytes *)









(** *** The counter *)


Section FaceDetectionFacts.

Variable detectMultipleFaces : ImageData -> bool.







End FaceDetectionFacts.



(** ** The time of the last notice *)

Lemma show_last_shown now msg sev p :
  lastWarningTime p = last_shown p ->
  lastWarningTime (show now msg sev p) = last_shown (show now msg sev p).
Proof.
  intros Hp. unfold show, showWarningOverlay, last_shown.
  destruct (now - lastWarningTime p <? 1000); simpl.
  - by rewrite app_nil_r.
  - by rewrite last_snoc.
Qed.

Lemma page_step_last_shown sid href p ev :
  lastWarningTime p = last_shown p ->
  lastWarningTime (page_step sid href p ev)
  = last_shown (page_step sid href p ev).
Proof.
  intros Hp. destruct ev as [e | [r |] now | msg sev now]; simpl; try done.
  - case_bool_decide; [done |]. destruct (Background.ok r); [| done].
    by apply show_last_shown.
  - by apply show_last_shown.
Qed.

Lemma page_run_last_shown sid href evs : forall p,
  lastWarningTime p = last_shown p ->
  lastWarningTime (page_run sid href evs p)
  = last_shown (page_run sid href evs p).
Proof.
  induction evs as [| ev evs IH]; intros p Hp; [done |].
  apply IH. by apply page_step_last_shown.
Qed.

(** Whatever happened on the page, [lastWarningTime] is the time of the
    last notice displayed (0 before the first): a suppressed call does not
    move it. A call of [showWarningOverlay] at least 1000 ms after the last
    displayed notice displays its notice; an earlier call, or one at a
    clock reading before that notice, changes nothing at all. *)
Theorem last_notice_time (studentId : option string) (href : string)
    (evs : list PageEvent) :
  let p := page_run studentId href evs initial_page in
  lastWarningTime p = last_shown p /\
  forall (now : Z) (msg sev : string),
    (1000 <= now - last_shown p ->
     shown (show now msg sev p) =
       shown p ++ [ {| shown_at := now; text := "⚠️ " +:+ msg;
                       severity := sev |} ]) /\
    (now - last_shown p < 1000 -> show now msg sev p = p).
Proof.
  cbv zeta.
  assert (Hl : lastWarningTime (page_run studentId href evs initial_page)
               = last_shown (page_run studentId href evs initial_page))
    by (by apply page_run_last_shown).
  split; [done |]. intros now msg sev. rewrite <- Hl.
  unfold show, showWarningOverlay. split; intros Hgap.
  - apply Z.ltb_ge in Hgap. by rewrite Hgap.
  - apply Z.ltb_lt in Hgap. rewrite Hgap. simpl. rewrite app_nil_r.
    by destruct (page_run studentId href evs initial_page).
Qed.

Lemma last_notice_time_witness :
  let p := page_run (Some "s1") "https://exam.example/paper" busy_second
             initial_page in
  lastWarningTime p = 1714564800000 /\
  show 1714564800999 "late" "warning" p = p.
Proof.
  destruct (last_notice_time (Some "s1") "https://exam.example/paper"
              busy_second) as [Hl Hshow].
  split; [exact Hl |].
  apply (Hshow 1714564800999 "late" "warning"). vm_compute. reflexivity.
Defined.

(** ** The lockdown *)




(** ** Screen sharing software *)

Lemma append_cons (x : Ascii.ascii) (a c : string) :
  String x a +:+ c = String x (a +:+ c).
Proof. reflexivity. Qed.

Lemma append_empty (c : string) : "" +:+ c = c.
Proof. reflexivity. Qed.

Lemma prefix_spec (a b : string) :
  String.prefix a b = true <-> exists c, b = a +:+ c.
Proof.
  revert b. induction a as [| x a IH]; intros b.
  - destruct b; simpl; split; eauto.
  - destruct b as [| y b]; simpl.
    + split; [done | intros [c Hc]; discriminate].
    + destruct (Ascii.ascii_dec x y) as [-> | Hne].
      * rewrite IH. split.
        -- intros [c ->]. by exists c.
        -- intros [c Hc]. rewrite append_cons in Hc. injection Hc as ->.
           by exists c.
      * split; [done |]. intros [c Hc]. rewrite append_cons in Hc. congruence.
Qed.

(** [includes] is the occurrence of the second string in the first. *)
Lemma includes_spec (hay needle : string) :
  includes hay needle = true <-> exists a c, hay = a +:+ needle +:+ c.
Proof.
  induction hay as [| h hay IH]; cbn [includes];
    rewrite orb_true_iff, prefix_spec.
  - split.
    + intros [[c Hc] | ?]; [| done]. by exists "", c.
    + intros (a & c & Hac). left. destruct a; [| discriminate]. by exists c.
  - rewrite IH. split.
    + intros [[c Hc] | (a & c & Hc)].
      * by exists "", c.
      * exists (String h a), c. by rewrite append_cons, Hc.
    + intros (a & c & Hac). destruct a as [| x a].
      * left. by exists c.
      * right. rewrite append_cons in Hac. injection Hac as -> ->.
        by exists a, c.
Qed.

Lemma find_first {A} (f : A -> bool) (l : list A) (x : A) :
  List.find f l = Some x ->
  exists l1 l2, l = l1 ++ x :: l2 /\ f x = true /\
                forall y, y ∈ l1 -> f y = false.
Proof.
  induction l as [| a l IH]; simpl; [done |].
  destruct (f a) eqn:E.
  - intros [= <-]. exists [], l. split; [done |]. split; [done |].
    intros y Hy. by apply elem_of_nil in Hy.
  - intros Hf. destruct (IH Hf) as (l1 & l2 & -> & Hx & Hl1).
    exists (a :: l1), l2. split; [done |]. split; [done |].
    intros y Hy. apply elem_of_cons in Hy as [-> | Hy]; [done | by apply Hl1].
Qed.

Lemma find_none_iff {A} (f : A -> bool) (l : list A) :
  List.find f l = None <-> forall y, y ∈ l -> f y = false.
Proof.
  induction l as [| a l IH]; simpl.
  - split; [intros _ y Hy; by apply elem_of_nil in Hy | done].
  - destruct (f a) eqn:E.
    + split; [done |]. intros H. specialize (H a (list_elem_of_here _ _)).
      congruence.
    + rewrite IH. split.
      * intros H y Hy. apply elem_of_cons in Hy as [-> | Hy]; [done | by apply H].
      * intros H y Hy. apply H. by apply list_elem_of_further.
Qed.

(** [detectScreenSharingProcesses] returns the first name of its list that
    occurs in the title, the URL or the text read of the page; when none
    occurs it returns 'chrome remote desktop' if [window.chrome.app] is
    there and [null] otherwise. The check records one SCREEN_SHARE
    infraction, naming what was found, whenever something is returned and
    nothing otherwise. *)
Theorem screen_share_detection (t : PageText) (now : Z) :
  (forall i : string,
     mentions t i = true <->
     exists a c, pageTitle t = a +:+ i +:+ c \/ pageUrl t = a +:+ i +:+ c \/
                 bodyText t = a +:+ i +:+ c) /\
  (detectScreenSharingProcesses t = None <->
   (forall i, i ∈ indicators -> mentions t i = false) /\ chrome_app t = false) /\
  (forall found : string,
     detectScreenSharingProcesses t = Some found ->
     ((exists l1 l2, indicators = l1 ++ found :: l2 /\
                     mentions t found = true /\
                     forall j, j ∈ l1 -> mentions t j = false) \/
      (found = "chrome remote desktop" /\ chrome_app t = true /\
       forall i, i ∈ indicators -> mentions t i = false)) /\
     infractions_in (screenShareCheck t now) =
       [ {| e_type := "SCREEN_SHARE"; e_details := "Detected: " +:+ found |} ]) /\
  (detectScreenSharingProcesses t = None -> screenShareCheck t now = []).
Proof.
  split; [| split; [| split]].
  - intros i. unfold mentions. rewrite !orb_true_iff, !includes_spec. split.
    + intros [[(a & c & H) | (a & c & H)] | (a & c & H)]; exists a, c; tauto.
    + intros (a & c & [H | [H | H]]); eauto.
  - unfold detectScreenSharingProcesses.
    destruct (List.find (mentions t) indicators) as [i |] eqn:E.
    + split; [done |]. intros [Hnone _].
      apply find_first in E as (l1 & l2 & Hl & Hi & _).
      rewrite Hnone in Hi; [done |]. rewrite Hl.
      apply elem_of_app. right. apply list_elem_of_here.
    + rewrite find_none_iff in E. destruct (chrome_app t).
      * split; [done | by intros [_ ?]].
      * split; [done | done].
  - intros found Hfound. split.
    + unfold detectScreenSharingProcesses in Hfound.
      destruct (List.find (mentions t) indicators) as [i |] eqn:E.
      * injection Hfound as ->. left. by apply find_first.
      * rewrite find_none_iff in E. destruct (chrome_app t); [| done].
        injection Hfound as <-. right. done.
    + unfold screenShareCheck. by rewrite Hfound.
  - intros Hnone. unfold screenShareCheck. by rewrite Hnone.
Qed.

(** A page that names "teamviewer" and then "anydesk" is reported for
    "anydesk", which comes first in the list. *)
Lemma screen_share_detection_witness :
  infractions_in (screenShareCheck help_page 0) =
    [ {| e_type := "SCREEN_SHARE"; e_details := "Detected: anydesk" |} ].
Proof.
  refine (proj2 (proj1 (proj2 (proj2 (screen_share_detection help_page 0)))
                   "anydesk" _)).
  reflexivity.
Defined.

(** ** Pointer movements *)

Lemma on_mousemove_slice (ms : list Move) (m : Move) :
  on_mousemove (slice_last 50 ms) m = slice_last 50 (ms ++ [m]).
Proof.
  unfold on_mousemove, slice_last.
  rewrite !length_app, length_drop. simpl.
  destruct (decide (50 <= length ms)%nat) as [Hge | Hlt].
  - assert (E : (50 <? length ms - (length ms - 50) + 1)%nat = true)
      by (apply Nat.ltb_lt; lia).
    rewrite E. rewrite (drop_app_le _ _ 1) by (rewrite length_drop; lia).
    rewrite drop_drop, drop_app_le by lia. f_equal. f_equal. lia.
  - assert (E : (50 <? length ms - (length ms - 50) + 1)%nat = false)
      by (apply Nat.ltb_ge; lia).
    rewrite E. replace (length ms - 50)%nat with 0%nat by lia.
    replace (length ms + 1 - 50)%nat with 0%nat by lia. done.
Qed.

(** After any sequence of [mousemove] events, [mouseMovements] holds the
    last 50 of the positions seen, oldest first, and all of them when
    fewer were seen: it never holds more than 50. *)
Theorem mouse_window (ms : list Move) :
  foldl on_mousemove [] ms = slice_last 50 ms /\
  (length (foldl on_mousemove [] ms) <= 50)%nat.
Proof.
  assert (H : foldl on_mousemove [] ms = slice_last 50 ms).
  { induction ms as [| m ms IH] using rev_ind; [done |].
    by rewrite foldl_snoc, IH, on_mousemove_slice. }
  split; [done |]. rewrite H. unfold slice_last. rewrite length_drop. lia.
Qed.

Lemma rapidChanges_le (l : list Move) :
  (rapidChanges l <= pred (length l))%nat.
Proof.
  induction l as [| a l IH]; [done |].
  destruct l as [| b l]; [done |].
  change (rapidChanges (a :: b :: l))
    with ((if rapid a b then 1 else 0) + rapidChanges (b :: l))%nat.
  simpl length in *. destruct (rapid a b); lia.
Qed.

(** A check of the pointer positions with fewer than 10 positions leaves
    the positions and the counter as they are; any other check empties the
    positions. An EYE_MOVEMENT is recorded only by a check that has at
    least 12 positions, more than 10 rapid steps among the last 20 of
    them, and follows a check that counted as suspicious; it sets the
    counter to 0. A check with 10 or 11 positions sets the counter to 0 and
    records nothing. *)
Theorem eye_tracking_check (mouseMovements : list Move)
    (suspiciousPatterns : nat) :
  let out := eyeTrackingTick mouseMovements suspiciousPatterns in
  ((length mouseMovements < 10)%nat ->
   out = (mouseMovements, suspiciousPatterns, [])) /\
  ((10 <= length mouseMovements)%nat -> out.1.1 = []) /\
  (out.2 <> [] ->
   out.2 = [EYE_MOVEMENT] /\ out.1.2 = O /\
   (12 <= length mouseMovements)%nat /\ (1 <= suspiciousPatterns)%nat /\
   (10 < rapidChanges (slice_last 20 mouseMovements))%nat) /\
  ((10 <= length mouseMovements < 12)%nat -> out.1.2 = O /\ out.2 = []).
Proof.
  cbv zeta. unfold eyeTrackingTick.
  pose proof (rapidChanges_le (slice_last 20 mouseMovements)) as Hle.
  rewrite slice_last_length' in Hle.
  destruct (length mouseMovements <? 10)%nat eqn:E10.
  { apply Nat.ltb_lt in E10. repeat split; try done; intros; simpl in *; lia. }
  apply Nat.ltb_ge in E10.
  destruct (10 <? rapidChanges (slice_last 20 mouseMovements))%nat eqn:Er.
  - apply Nat.ltb_lt in Er.
    destruct (2 <=? S suspiciousPatterns)%nat eqn:Es.
    + apply Nat.leb_le in Es. simpl.
      repeat split; try done; intros; lia.
    + apply Nat.leb_gt in Es. simpl.
      repeat split; try done; intros; lia.
  - simpl. repeat split; try done; intros; lia.
Qed.

Lemma eye_tracking_check_witness :
  eyeTrackingTick (take 9 sweep) 1 = (take 9 sweep, 1%nat, []) /\
  (eyeTrackingTick sweep 1).1.1 = [].
Proof.
  destruct (eye_tracking_check (take 9 sweep) 1) as (Hfew & _).
  destruct (eye_tracking_check sweep 1) as (_ & Hmany & _).
  split; [apply Hfew | apply Hmany]; vm_compute; lia.
Defined.

(** ** Window movements and monitor checks *)

Lemma windowMoveTick_small (w : Window) (last : Z * Z) :
  Z.abs (screenX w - last.1) <= 100 -> Z.abs (screenY w - last.2) <= 100 ->
  windowMoveTick w last = ((screenX w, screenY w), [], []).
Proof.
  intros Hx Hy. unfold windowMoveTick.
  apply Z.ltb_ge in Hx, Hy. by rewrite Hx, Hy.
Qed.

(** A window that moves by at most 100 in each direction between two runs
    of the two-second check never has a movement recorded, however far it
    gets in the end and whatever the monitor detection would say; the
    check ends up remembering the last position. *)
Theorem slow_window_never_recorded (ws : list Window) (last : Z * Z) :
  small_steps last ws ->
  (windowMoveRun ws last).2 = [] /\
  (windowMoveRun ws last).1 =
    from_option (fun w => (screenX w, screenY w)) last (list.last ws).
Proof.
  revert last. induction ws as [| w ws IH]; intros last Hsmall; [done |].
  destruct Hsmall as (Hx & Hy & Hrest). simpl windowMoveRun.
  rewrite windowMoveTick_small by done.
  specialize (IH _ Hrest) as [IHe IHp].
  destruct (windowMoveRun ws (screenX w, screenY w)) as [last'' es'] eqn:E.
  simpl in *. split; [done |]. rewrite IHp.
  destruct ws as [| w' ws]; [reflexivity |]. rewrite last_cons_cons.
  destruct (list.last (w' :: ws)) eqn:El; [done |].
  by apply last_None in El.
Qed.

(** An ultra-wide window is dragged 2500 to the right in steps of 100:
    nothing is recorded. *)
Lemma slow_window_never_recorded_witness :
  (windowMoveRun drifting (0, 0)).2 = [] /\
  (windowMoveRun drifting (0, 0)).1 = (2500, 0).
Proof.
  apply (slow_window_never_recorded drifting (0, 0)).
  vm_compute. repeat split; discriminate.
Defined.

Lemma monitor_body_reason (w : Window) (r : MonitorResult) :
  monitor_body w = Returns r -> detected r = true ->
  exists why, reason r = Some why /\
              forall n, screenCount r = Some n -> 1 < n.
Proof.
  unfold monitor_body. destruct (screen w) as [s |]; [| done].
  destruct (isUltraWide _ _).
  { intros [= <-] _. eexists. by split. }
  destruct (_ || _).
  { intros [= <-] _. eexists. by split. }
  case_bool_decide.
  { intros [= <-] _. eexists. by split. }
  destruct (getScreenDetails w) as [[[n |] | err] |];
    try (intros [= <-]; done).
  destruct (1 <? n) eqn:E; [| intros [= <-]; done].
  apply Z.ltb_lt in E. intros [= <-] _. eexists. split; [done |].
  by intros n' [= <-].
Qed.

(** A monitor check records exactly when the detection is positive, and
    then one MULTIPLE_MONITORS infraction that names the reason found. The
    initial check sets [initialScreenCount] to 1 when nothing is detected
    and otherwise to the number of screens enumerated, or to 2 when the
    signal was another, so to at least 2. *)
Theorem monitor_checks_record (w : Window) (now : Z) :
  let result := (detectMultipleMonitors w).1 in
  (detected result = false ->
   (monitor_check w).1 = [] /\
   (initialMonitorCheck w now).1 = (1, [])) /\
  (detected result = true ->
   exists why : string,
     reason result = Some why /\
     (monitor_check w).1 =
       [ {| e_type := "MULTIPLE_MONITORS"; e_details := why |} ] /\
     infractions_in (initialMonitorCheck w now).1.2 =
       [ {| e_type := "MULTIPLE_MONITORS"; e_details := why |} ] /\
     (initialMonitorCheck w now).1.1 = default 2 (screenCount result) /\
     2 <= (initialMonitorCheck w now).1.1).
Proof.
  cbv zeta. unfold monitor_check, initialMonitorCheck.
  destruct (monitor_body w) as [r | err] eqn:E.
  - rewrite (detect_returns _ _ E). cbn [fst snd]. split.
    + intros ->. done.
    + intros Hd. rewrite Hd.
      destruct (monitor_body_reason w r E Hd) as (why & Hwhy & Hn).
      exists why. rewrite Hwhy. cbn [fst snd default].
      split; [done |]. split; [done |]. split; [done |].
      destruct (screenCount r) as [n |]; simpl; [| done].
      specialize (Hn n eq_refl). unfold or_num.
      destruct (n =? 0) eqn:E0; [apply Z.eqb_eq in E0; lia |].
      split; [done | lia].
  - unfold detectMultipleMonitors. rewrite E. cbn [fst snd detected not_detected].
    split; [done | done].
Qed.

Lemma monitor_checks_record_witness :
  (monitor_check single_monitor_window).1 = [] /\
  (initialMonitorCheck single_monitor_window 0).1 = (1, []) /\
  (initialMonitorCheck ultra_wide_window 0).1.1 = 2.
Proof.
  destruct (monitor_checks_record single_monitor_window 0) as [Hno _].
  destruct (monitor_checks_record ultra_wide_window 0) as [_ Hyes].
  destruct (Hno eq_refl) as [H1 H2].
  destruct (Hyes eq_refl) as (why & _ & _ & _ & Hcount & _).
  split; [exact H1 |]. split; [exact H2 |]. exact Hcount.
Defined.

(** ** Messages from the service worker *)

(** The message the service worker sends when a tab is activated goes to
    that tab and carries that tab's own url, so the page whose address is
    that url records nothing for it. For a [tabActivated] message the
    content script records one TAB_SWITCH, with the url of the message in
    its details, when monitoring is active and that url differs from the
    address of the page, and nothing otherwise. For the message of a new
    tab it records one NEW_TAB and for that of a lost focus one
    EXTERNAL_APP, whether or not monitoring is active. *)
Theorem tab_messages (tabId : Z) (tab : option Background.Tab)
    (monitoringActive : bool) (href : string) :
  (forall (target : Z) (msg : Background.TabMessage),
     Background.onActivated tabId tab = Some (target, msg) ->
     target = tabId /\
     exists (t : Background.Tab) (url : string),
       tab = Some t /\ Background.tab_url t = Some url /\ url <> "" /\
       msg = Background.tabActivated url /\
       onMessage monitoringActive url msg = []) /\
  (forall url : string,
     (monitoringActive = true /\ url <> href ->
      onMessage monitoringActive href (Background.tabActivated url) =
        [ {| e_type := "TAB_SWITCH";
             e_details := "Switched to: " +:+ url |} ]) /\
     (~ (monitoringActive = true /\ url <> href) ->
      onMessage monitoringActive href (Background.tabActivated url) = []) /\
     (onMessage monitoringActive href (Background.tabActivated url) <> [] <->
      monitoringActive = true /\ url <> href)) /\
  onMessage monitoringActive href Background.newTabCreated =
    [ {| e_type := "NEW_TAB"; e_details := "New tab opened" |} ] /\
  onMessage monitoringActive href Background.browserLostFocus =
    [ {| e_type := "EXTERNAL_APP";
         e_details := "Browser lost focus - possible external application" |} ] /\
  length (onMessage monitoringActive href Background.newTabCreated) = 1%nat /\
  length (onMessage monitoringActive href Background.browserLostFocus) = 1%nat.
Proof.
  split; [| split; [| repeat split]].
  - intros target msg. unfold Background.onActivated.
    destruct tab as [t |]; [| done].
    destruct (truthy_str (Background.tab_url t)) eqn:Hu; [| done].
    apply BackgroundFacts.truthy_str_Some in Hu as (url & Hurl & Hne).
    intros [= <- <-]. split; [done |]. exists t, url.
    rewrite Hurl. simpl. rewrite String.eqb_refl, andb_false_r.
    by repeat split.
  - intros url. cbn [onMessage].
    destruct monitoringActive, (String.eqb_spec url href); cbn [andb negb].
    + split; [intros [_ ?]; done |]. split; [done |].
      split; [done | intros [_ ?]; done].
    + split; [done |]. split; [intros Hn; by destruct Hn |]. done.
    + split; [intros [? _]; done |]. split; [done |].
      split; [done | intros [? _]; done].
    + split; [intros [? _]; done |]. split; [done |].
      split; [done | intros [? _]; done].
Qed.

Lemma tab_messages_witness :
  onMessage true "https://exam.example/paper"
    (Background.tabActivated "https://exam.example/paper") = [].
Proof.
  destruct (tab_messages 7
              (Some {| Background.tab_url := Some "https://exam.example/paper";
                       Background.openerTabId := None |})
              true "https://exam.example/paper") as [Hown _].
  destruct (Hown 7 (Background.tabActivated "https://exam.example/paper")
              eq_refl)
    as (_ & t & url & _ & _ & _ & [= <-] & Hsilent).
  exact Hsilent.
Defined.

(** ** The start of monitoring *)

Section StudentIdFacts.

Variable trim : string -> string.

(** Monitoring starts only with a student id that is set: whenever
    [initializeMonitoring] activates the detectors, [studentId] is a
    non-empty string, and either no reply to the [isBlocked] message came
    or the reply did not say blocked. Without an id nothing starts. With
    the reply of the service worker's [isBlocked] handler for an identity
    that has a block record, monitoring is not started: the script asks for
    another id or runs [enforceBlock], as the student chooses. *)
Theorem monitoring_starts_unblocked (stored : Outcome (option string))
    (prompted : option string)
    (response : option (bool * property Background.BlockRecord))
    (switchId : bool) :
  let out := initializeMonitoring trim stored prompted response switchId in
  (out.2 = Monitoring ->
   truthy_str out.1 = true /\
   (response = None \/ exists info, response = Some (false, info))) /\
  (out.2 = NoStudentId <-> truthy_str out.1 = false) /\
  (forall data : Background.Storage,
     truthy_str out.1 = true ->
     Background.Blocked data (to_key out.1) ->
     response = Some (Background.isBlocked out.1 data) ->
     out.2 = (if switchId then SwitchId else Locked)).
Proof.
  cbv zeta. unfold initializeMonitoring.
  set (sid := if negb (truthy_str (getStudentId stored).1)
              then (requireStudentId trim stored prompted).1
              else (getStudentId stored).1).
  destruct (truthy_str sid) eqn:Hsid; cbn [negb].
  - split; [| split].
    + destruct response as [[[|] info] |]; cbn [fst snd].
      * destruct switchId; done.
      * intros _. split; [done |]. right. by exists info.
      * intros _. split; [done |]. by left.
    + destruct response as [[[|] info] |]; cbn [fst snd];
        try destruct switchId; cbn [fst snd]; split; congruence.
    + intros data _. destruct response as [[[|] info] |]; cbn [fst snd].
      * by destruct switchId.
      * intros [b Hb] [= Hblk]. exfalso.
        unfold Background.isBlocked, Background.blockedIds_of in *.
        destruct (Background.st_blockedIds data) as [m |]; simpl in *.
        -- injection Hblk as Hblk _. unfold js_get in Hblk.
           rewrite Hb in Hblk. done.
        -- by rewrite lookup_empty in Hb.
      * done.
  - cbn [fst snd]. split; [done |]. split; [done |]. intros data Habs.
    congruence.
Qed.

End StudentIdFacts.

Lemma monitoring_starts_unblocked_witness :
  (initializeMonitoring (fun s => s) (Returns (Some "s1")) None
     (Some (Background.isBlocked (Some "s1") Background.after_three)) false).2
  = Locked.
Proof.
  refine (proj2 (proj2 (monitoring_starts_unblocked (fun s => s)
                          (Returns (Some "s1")) None
                          (Some (Background.isBlocked (Some "s1")
                                   Background.after_three)) false))
            Background.after_three _ _ _).
  - reflexivity.
  - vm_compute. eauto.
  - reflexivity.
Defined.

(** ** Keyboard shortcuts *)

(** A key press records at most one infraction, of type COPY_PASTE, and
    the default action is prevented exactly when one is recorded. The
    shortcut branch comes first: a development-tools attempt is recorded
    exactly for F12 and for Ctrl or Meta with Shift and i or j, when the
    key is not a forbidden one with Ctrl or Meta; with c, which is
    forbidden, Ctrl+Shift+C is recorded as a keyboard shortcut. *)
Theorem keydown_shortcuts (toLowerCase : string -> string) (e : KeyEvent) :
  let ctrl := ctrlKey e || metaKey e in
  let lower := toLowerCase (key e) in
  let out := on_keydown toLowerCase e in
  (length out.1 <= 1)%nat /\
  (out.2 = true <-> out.1 <> []) /\
  (forall x, x ∈ out.1 -> e_type x = "COPY_PASTE") /\
  (shortcut (key e) ∈ out.1 <-> ctrl = true /\ lower ∈ forbidden) /\
  (dev_tools ∈ out.1 <->
   ~ (ctrl = true /\ lower ∈ forbidden) /\
   (key e = "F12" \/
    ctrl = true /\ shiftKey e = true /\ lower ∈ [ "i"; "j" ])).
Proof.
  cbv zeta. unfold on_keydown.
  assert (Hdiff : shortcut (key e) <> dev_tools)
    by (unfold shortcut, dev_tools; intros [= H]; discriminate H).
  destruct (ctrlKey e || metaKey e) eqn:Hctrl; cbn [andb].
  - case_bool_decide as Hf; cbn [fst snd length].
    + split; [lia |]. split; [done |].
      split; [by intros x ->%list_elem_of_singleton |].
      split; [split; [done | intros _; apply list_elem_of_here] |].
      split; [| intros [Hn _]; by destruct Hn].
      intros Hin%list_elem_of_singleton. by destruct Hdiff.
    + destruct (String.eqb_spec (key e) "F12") as [Hk | Hk]; cbn [orb].
      * cbn [fst snd length]. split; [lia |]. split; [done |].
        split; [by intros x ->%list_elem_of_singleton |].
        split.
        { split; [| intros [_ ?]; done].
          intros Hin%list_elem_of_singleton. by destruct Hdiff. }
        split; [intros _ | intros _; apply list_elem_of_here].
        split; [intros [_ ?]; done | by left].
      * destruct (shiftKey e) eqn:Hs; cbn [andb].
        -- case_bool_decide as Hd; cbn [fst snd length].
           ++ split; [lia |]. split; [done |].
              split; [by intros x ->%list_elem_of_singleton |].
              split.
              { split; [| intros [_ ?]; done].
                intros Hin%list_elem_of_singleton. by destruct Hdiff. }
              split; [intros _ | intros _; apply list_elem_of_here].
              split; [intros [_ ?]; done |]. right.
              split; [done |]. split; [done |].
              assert (Hnc : toLowerCase (key e) <> "c").
              { intros Heq. apply Hf. rewrite Heq.
                listed. }
              repeat (apply elem_of_cons in Hd as [Hd | Hd]);
                [rewrite Hd; listed | rewrite Hd; listed | done
                | by apply elem_of_nil in Hd].
           ++ split; [lia |]. split; [done |].
              split; [intros x Hx; by apply elem_of_nil in Hx |].
              split; [split; [intros Hx; by apply elem_of_nil in Hx
                             | intros [_ ?]; done] |].
              split; [intros Hx; by apply elem_of_nil in Hx |].
              intros [_ [? | (_ & _ & Hij)]]; [done |].
              destruct Hd.
              repeat (apply elem_of_cons in Hij as [Hij | Hij]);
                [rewrite Hij; listed | rewrite Hij; listed
                | by apply elem_of_nil in Hij].
        -- cbn [fst snd length]. split; [lia |]. split; [done |].
           split; [intros x Hx; by apply elem_of_nil in Hx |].
           split; [split; [intros Hx; by apply elem_of_nil in Hx
                          | intros [_ ?]; done] |].
           split; [intros Hx; by apply elem_of_nil in Hx |].
           intros [_ [? | (_ & ? & _)]]; done.
  - destruct (String.eqb_spec (key e) "F12") as [Hk | Hk]; cbn [orb];
      cbn [fst snd length].
    + split; [lia |]. split; [done |].
      split; [by intros x ->%list_elem_of_singleton |].
      split.
      { split; [| intros [? _]; done].
        intros Hin%list_elem_of_singleton. by destruct Hdiff. }
      split; [intros _ | intros _; apply list_elem_of_here].
      split; [intros [? _]; done | by left].
    + split; [lia |]. split; [done |].
      split; [intros x Hx; by apply elem_of_nil in Hx |].
      split; [split; [intros Hx; by apply elem_of_nil in Hx
                     | intros [? _]; done] |].
      split; [intros Hx; by apply elem_of_nil in Hx |].
      intros [_ [? | (? & _)]]; done.
Qed.

End ContentFacts.

(** * Properties of a sitting *)

Module SessionFacts.
Import JS Background Content Session.

Lemma after_fresh (T : nat) (id : string) (data : Storage) :
  fresh data id -> after T id 0 (initial_page, data).
Proof.
  intros [Hi Hb]. unfold after, count_at, warnings_at, events_at, Blocked.
  cbn [fst snd]. rewrite Hi, Hb. simpl.
  repeat split; try done; try lia.
Qed.

Lemma after_submit (T : nat) (id href : string) (k : nat)
    (s : Page * Storage) (x : Dates * Z * Emission) :
  id <> "" -> inherited_key id = false ->
  after T id k s ->
  after T id (S k) (submit_at T (Some id) href s x) /\
  length (sent (submit_at T (Some id) href s x).1) = S (length (sent s.1)).
Proof.
  intros Hne Hinh (Henf & Hshown & Hc & Hw & He & Hb).
  destruct s as [p data], x as [[d now] e]. cbn [fst snd] in *.
  assert (Hid : truthy_str (Some id) = true)
    by (apply BackgroundFacts.truthy_str_Some; eauto).
  unfold submit_at, Content.recordInfraction. rewrite Hid.
  cbv beta iota zeta delta [negb]. cbn [fst snd].
  set (msg := request_of (Some id) href e).
  set (p1 := page_step (Some id) href p (Infraction e)).
  assert (Hp1 : enforced p1 = enforced p /\ shown p1 = shown p /\
                length (sent p1) = S (length (sent p))).
  { subst p1. unfold page_step, Content.recordInfraction. rewrite Hid.
    cbn. rewrite length_app. simpl. repeat split. lia. }
  destruct Hp1 as (Hp1e & Hp1s & Hp1n). clearbody p1.
  destruct (decide (T < k)%nat) as [Hlt | Hge].
  - (* the identity is blocked already *)
    assert (Hblk : truthy (js_get (blockedIds_of data) (to_key (studentId msg)))
                   = true)
      by (apply BackgroundFacts.truthy_own, Hb, Hlt).
    rewrite BackgroundFacts.record_rejected by done. cbn [fst snd].
    unfold page_step, already_blocked. cbn [r_blocked].
    rewrite bool_decide_eq_true_2 by done.
    unfold after. cbn [fst snd enforced shown sent].
    rewrite Hp1s, Hc, Hw, He.
    assert ((T <? S k)%nat = true) as -> by (apply Nat.ltb_lt; lia).
    repeat split; try lia; try done. intros _. apply Hb, Hlt.
  - (* the request is accepted *)
    assert (Hact : blockedIds_of data !! id = None).
    { destruct (blockedIds_of data !! id) eqn:E; [| done].
      exfalso. apply Hge, Hb. by eexists. }
    assert (Hblk : truthy (js_get (blockedIds_of data) (to_key (studentId msg)))
                   = false)
      by (by apply BackgroundFacts.not_blocked_not_inherited).
    destruct (BackgroundFacts.record_accepted T d msg data Hid Hblk)
      as (Hok & _ & _ & Hinf & Hbl & Hrep).
    change (to_key (studentId msg)) with id in Hinf, Hbl.
    set (out := recordInfraction_at T d msg data) in *.
    assert (Hr1 : count (next_record d msg data) = S k /\
                  warnings (next_record d msg data) = S k /\
                  length (events (next_record d msg data)) = S k).
    { unfold next_record, count_at, warnings_at, events_at in *.
      change (to_key (studentId msg)) with id.
      destruct (infractions_of data !! id) as [r |]; simpl in *;
        rewrite ?length_app; simpl; lia. }
    destruct Hr1 as (Hr1c & Hr1w & Hr1e).
    rewrite Hr1w in Hbl, Hrep.
    assert (Hcount : count_at out.2 id = S k /\ warnings_at out.2 id = S k /\
                     length (events_at out.2 id) = S k).
    { unfold count_at, warnings_at, events_at. rewrite Hinf, lookup_insert_eq.
      done. }
    destruct Hcount as (Hc' & Hw' & He').
    unfold after. cbn [fst snd]. rewrite Hc', Hw', He'.
    unfold Blocked. rewrite Hbl.
    destruct (T <? S k)%nat eqn:Hthr.
    + apply Nat.ltb_lt in Hthr. injection Hrep as Hrb _.
      unfold page_step. rewrite Hrb, bool_decide_eq_true_2 by done.
      cbn [enforced shown sent]. rewrite Hp1s, lookup_insert_eq.
      repeat split; try lia; try done.
    + apply Nat.ltb_ge in Hthr. injection Hrep as Hrb _.
      unfold page_step. rewrite Hrb, bool_decide_eq_false_2 by done.
      rewrite Hok. unfold show.
      destruct (showWarningOverlay _ _ _ _) as [[n |] last];
        cbn [enforced shown sent from_option];
        rewrite ?length_app, Hp1s, Hp1e, Henf, Hact; cbn [length];
        (assert ((T <? k)%nat = false) as -> by (apply Nat.ltb_ge; lia));
        repeat split; try lia; try done;
        try (intros [? ?]; done).
Qed.

Lemma after_sitting (T : nat) (id href : string)
    (xs : list (Dates * Z * Emission)) :
  id <> "" -> inherited_key id = false ->
  forall (k : nat) (s : Page * Storage),
    after T id k s ->
    after T id (k + length xs) (sitting_at T (Some id) href xs s) /\
    length (sent (sitting_at T (Some id) href xs s).1) =
      (length (sent s.1) + length xs)%nat.
Proof.
  intros Hne Hinh. induction xs as [| x xs IH]; intros k s Hs.
  - simpl. rewrite !Nat.add_0_r. done.
  - destruct (after_submit T id href k s x Hne Hinh Hs) as [Hs' Hn].
    destruct (IH (S k) _ Hs') as [Hs'' Hn'].
    simpl sitting_at. unfold sitting_at in *. simpl length.
    rewrite Nat.add_succ_r. split; [done |]. rewrite Hn', Hn. lia.
Qed.

(** The page and the service worker together, for a student whose id is a
    non-empty name that no object inherits and about whom nothing is
    stored: after [n] infractions of the sitting, each sent and answered
    before the next, [n] requests were sent; the ledger holds
    [min n (T + 1)] as count and as warnings and as many events; the
    identity is Blocked exactly when [n > T], and exactly then the page has
    run [enforceBlock]; and at most [min n T] warnings were displayed. *)
Theorem sitting_blocks_after_threshold (T : nat) (id href : string)
    (xs : list (Dates * Z * Emission)) (data : Storage) :
  id <> "" -> inherited_key id = false -> fresh data id ->
  let n := length xs in
  let out := sitting_at T (Some id) href xs (initial_page, data) in
  length (sent out.1) = n /\
  count_at out.2 id = min n (T + 1) /\
  warnings_at out.2 id = min n (T + 1) /\
  length (events_at out.2 id) = min n (T + 1) /\
  (Blocked out.2 id <-> (T < n)%nat) /\
  (enforced out.1 = true <-> (T < n)%nat) /\
  (length (shown out.1) <= min n T)%nat.
Proof.
  intros Hne Hinh Hfresh. cbv zeta.
  destruct (after_sitting T id href xs Hne Hinh 0 (initial_page, data)
              (after_fresh T id data Hfresh))
    as [(Henf & Hshown & Hc & Hw & He & Hb) Hn].
  cbn [fst snd] in *. rewrite Nat.add_0_l in *.
  split; [done |]. split; [done |]. split; [done |]. split; [done |].
  split; [done |]. split; [| done].
  rewrite Henf. apply Nat.ltb_lt.
Qed.

(** Four losses of focus: the third blocks, the fourth is refused, two
    warnings were displayed. *)
Lemma sitting_blocks_after_threshold_witness :
  let out := sitting_at INFRACTION_THRESHOLD (Some "s1")
               "https://exam.example/paper" four_blurs
               (initial_page, empty_storage) in
  length (sent out.1) = 4%nat /\
  count_at out.2 "s1" = 3%nat /\
  enforced out.1 = true /\
  length (shown out.1) = 2%nat.
Proof.
  destruct (sitting_blocks_after_threshold INFRACTION_THRESHOLD "s1"
              "https://exam.example/paper" four_blurs empty_storage)
    as (Hn & Hc & _ & _ & _ & Henf & _).
  - discriminate.
  - reflexivity.
  - split; reflexivity.
  - cbv zeta. split; [exact Hn |]. split; [exact Hc |].
    split; [apply Henf; vm_compute; lia |]. reflexivity.
Defined.

(** ** The types the detectors send *)

Lemma known_type (t : string) (i : InfractionInfo) (e : Emission) :
  e_type e = t -> INFRACTION_TYPES !! t = Some i ->
  forall (d : Dates) (sid : option string) (href : string),
    let ev := new_event d (request_of sid href e) in
    INFRACTION_TYPES !! e_type e = Some i /\
    ev_type ev = Some (e_type e) /\
    ev_severity ev = Some (Background.severity i) /\
    ev_message ev = Some (message i) /\
    ev_details ev = e_details e.
Proof.
  intros <- Hi d sid href. cbv zeta.
  unfold new_event, request_of, infractionInfo, js_get.
  cbn [infractionType details to_key default or_empty ev_type ev_severity
       ev_message ev_details id].
  by rewrite Hi.
Qed.

(** Every infraction a detector or listener of the content script records
    has a type of the service worker's table: the event entered in the
    ledger for it carries that type's severity and message, never the
    fallback "Unknown infraction", and the details the detector gave. *)
Theorem detected_types_known (e : Emission) :
  detects e ->
  forall (d : Dates) (sid : option string) (href : string),
    let ev := new_event d (request_of sid href e) in
    exists i : InfractionInfo,
      INFRACTION_TYPES !! e_type e = Some i /\
      ev_type ev = Some (e_type e) /\
      ev_severity ev = Some (Background.severity i) /\
      ev_message ev = Some (message i) /\
      ev_details ev = e_details e.
Proof.
  intros He d sid href. cbv zeta.
  assert (Hin : e_type e ∈ [ "TAB_SWITCH"; "NEW_TAB"; "EXTERNAL_APP";
                             "MULTIPLE_MONITORS"; "SCREEN_SHARE";
                             "EYE_MOVEMENT"; "NO_FACE"; "MULTIPLE_FACES";
                             "AUDIO_DETECTED"; "COPY_PASTE" ]).
  { destruct He as [active href' m e He | w e He | w now e He | w last e He
                   | t now e He | ms n e He | multiple frame c e He
                   | buffer c e He | lower k e He].
    - destruct m as [url | |]; simpl in He.
      + destruct (active && _); [| by apply elem_of_nil in He].
        apply list_elem_of_singleton in He as ->. listed.
      + apply list_elem_of_singleton in He as ->. listed.
      + apply list_elem_of_singleton in He as ->. listed.
    - unfold monitor_check in He.
      destruct (detectMultipleMonitors w) as [r log]. cbn [fst] in He.
      destruct (detected r); [| by apply elem_of_nil in He].
      apply list_elem_of_singleton in He as ->. listed.
    - unfold initialMonitorCheck in He.
      destruct (detectMultipleMonitors w) as [r log].
      destruct (detected r); cbn in He; [| by apply elem_of_nil in He].
      apply list_elem_of_singleton in He as ->. listed.
    - unfold windowMoveTick in He. destruct (_ || _).
      + destruct (detectMultipleMonitors w) as [r log]. cbn [fst snd] in He.
        destruct (detected r); [| by apply elem_of_nil in He].
        apply list_elem_of_singleton in He as ->. listed.
      + by apply elem_of_nil in He.
    - unfold screenShareCheck in He.
      destruct (detectScreenSharingProcesses t); cbn in He;
        [| by apply elem_of_nil in He].
      apply list_elem_of_singleton in He as ->. listed.
    - unfold eyeTrackingTick in He.
      destruct (_ <? 10)%nat; [by apply elem_of_nil in He |].
      destruct (10 <? _)%nat; [| by apply elem_of_nil in He].
      destruct (2 <=? _)%nat; [| by apply elem_of_nil in He].
      apply list_elem_of_singleton in He as ->. listed.
    - unfold faceDetectionTick in He.
      destruct (img_width frame =? 0)%Z; [by apply elem_of_nil in He |].
      destruct (img_height frame =? 0)%Z; [by apply elem_of_nil in He |].
      destruct (streak3 _ _) as [c' fire]. cbn [snd] in He.
      apply elem_of_app in He as [He | He].
      + destruct fire; [| by apply elem_of_nil in He].
        apply list_elem_of_singleton in He as ->. listed.
      + destruct (multiple frame); [| by apply elem_of_nil in He].
        apply list_elem_of_singleton in He as ->. listed.
    - unfold audioDetectionTick in He.
      destruct (streak3 _ _) as [c' fire]. cbn [snd] in He.
      destruct fire; [| by apply elem_of_nil in He].
      apply list_elem_of_singleton in He as ->. listed.
    - unfold on_keydown in He.
      destruct (_ && _); cbn [fst] in He.
      + apply list_elem_of_singleton in He as ->. listed.
      + destruct (_ || _); cbn [fst] in He; [| by apply elem_of_nil in He].
        apply list_elem_of_singleton in He as ->. listed. }
  repeat (apply elem_of_cons in Hin as [Hin | Hin];
          [eexists; eapply (known_type _ _ e Hin); reflexivity |]).
  by apply elem_of_nil in Hin.
Qed.

Lemma detected_types_known_witness :
  exists i : InfractionInfo,
    INFRACTION_TYPES !! "NO_FACE" = Some i /\
    ev_message (new_event at_noon
                  (request_of (Some "s1") "https://exam.example/paper" NO_FACE))
    = Some (message i).
Proof.
  destruct (detected_types_known NO_FACE
              (by_face (fun _ => false) black_frame 2 NO_FACE
                 ltac:(vm_compute; apply list_elem_of_here))
              at_noon (Some "s1") "https://exam.example/paper")
    as (i & Hi & _ & _ & Hm & _).
  exists i. split; [exact Hi | exact Hm].
Defined.

End SessionFacts.

(** * Properties of the control panel *)

Module PopupFacts.
Import JS Background Popup.

(** What the control panel shows of a ledger the extension can reach, for
    a student id that no object inherits: shown as blocked, the student
    has 3 infractions and 3 warnings, flagged, and three recent events;
    shown as active, the student has as many infractions as warnings, at
    most 2, flagged exactly at 2. The student is shown as blocked exactly
    when the ledger holds a block record. *)
Theorem panel_shows_ledger (id : string) (data : Storage) :
  reachable data -> inherited_key id = false ->
  let st := localStatus id (getStatus data) in
  (shows_blocked st = true <-> Blocked data id) /\
  (shows_blocked st = true ->
   infractionCount st = Some 3 /\ warningCount st = Some 3 /\
   warnings_flagged st = true /\ length (recentEvents st) = 3) /\
  (shows_blocked st = false ->
   exists w : nat,
     w <= 2 /\ infractionCount st = Some w /\ warningCount st = Some w /\
     (warnings_flagged st = true <-> w = 2)).
Proof.
  intros Hr Hinh.
  assert (Hkept : well_kept data).
  { induction Hr as [| e data Hr IH].
    - by apply BackgroundFacts.well_kept_empty.
    - by apply BackgroundFacts.well_kept_handle. }
  destruct Hkept as [Hrec Hblk].
  cbv zeta. unfold localStatus, getStatus, js_get. cbn [fst snd].
  rewrite Hinh. cbn [shows_blocked infractionCount warningCount
                     warnings_flagged recentEvents].
  destruct (blockedIds_of data !! id) as [b |] eqn:Eb; cbn [truthy].
  - destruct (Hblk id b Eb) as (r & Er & _). rewrite Er.
    destruct (Hrec id r Er) as (_ & _ & Hcw & Hce & _ & Hthree).
    assert (Hw : warnings r = 3)
      by (apply Hthree; unfold Blocked; rewrite Eb; by eexists).
    split; [split; [intros _; unfold Blocked; rewrite Eb; by eexists | done] |].
    split; [| done]. intros _. cbn [from_option].
    rewrite Hcw, Hw. split; [done |]. split; [done |]. split; [done |].
    rewrite length_reverse, BackgroundFacts.slice_last_length.
    rewrite Hcw, Hw in Hce. lia.
  - split; [split; [done | unfold Blocked; rewrite Eb; by intros [? ?]] |].
    split; [done |]. intros _.
    destruct (infractions_of data !! id) as [r |] eqn:Er.
    + destruct (Hrec id r Er) as (_ & _ & Hcw & _ & Hact & _).
      specialize (Hact Eb). unfold INFRACTION_THRESHOLD in Hact.
      exists (warnings r). rewrite Hcw. cbn [from_option].
      split; [done |]. split; [done |]. split; [done |].
      rewrite Nat.leb_le. lia.
    + exists 0. cbn [from_option]. split; [lia |]. split; [done |].
      split; [done |]. rewrite Nat.leb_le. lia.
Qed.

Lemma panel_shows_ledger_witness :
  let st := localStatus "s1" (getStatus after_three) in
  shows_blocked st = true /\ warningCount st = Some 3.
Proof.
  destruct (panel_shows_ledger "s1" after_three) as (_ & Hb & _).
  - apply BackgroundFacts.reachable_after_three.
  - reflexivity.
  - cbv zeta. split; [reflexivity |]. apply Hb. reflexivity.
Defined.

End PopupFacts.
